(** * Gutenberg: the LinkControl component and the query-total block renderer

    A shallow embedding of two source files:

    - [packages/block-editor/src/components/link-control/index.js], the
      React component [LinkControl]: its state, its refs, its two effects,
      its event handlers and the flags it derives on every render;
    - the server-side renderer [render_block_core_query_total] of the
      [core/query-total] block (PHP).

    Each part lives in a module of its own; the theorems follow the
    definitions. *)

From Stdlib Require Import ZArith String Ascii List DecimalString Lia Bool.
From Stdlib Require DecimalPos DecimalZ.
From stdpp Require Import base option list gmap strings.

Local Open Scope Z_scope.

(* ===================================================================== *)
(** * Part I: the query-total renderer (PHP)                              *)
(* ===================================================================== *)

Module QueryTotal.

(** ** PHP values and integer arithmetic *)

(** The two kinds of PHP values that reach [sprintf] in this file. *)
Inductive php_value :=
| PInt (z : Z)
| PStr (s : string).

Definition PHP_INT_MAX : Z := 2 ^ 63 - 1.
Definition PHP_INT_MIN : Z := - 2 ^ 63.

Definition is_php_int (z : Z) : bool :=
  (PHP_INT_MIN <=? z) && (z <=? PHP_INT_MAX).

(** PHP integer arithmetic does not wrap: a result outside the integer
    range becomes a float.  Floats are outside this model, so such a
    result is [None]. *)
Definition php_int (z : Z) : option Z :=
  if is_php_int z then Some z else None.

Definition php_add (a b : Z) : option Z := php_int (a + b).
Definition php_sub (a b : Z) : option Z := php_int (a - b).
Definition php_mul (a b : Z) : option Z := php_int (a * b).

(** String conversion of an integer: decimal digits, ["-"] in front of a
    negative number. *)
Definition strval_int (z : Z) : string :=
  NilZero.string_of_int (Z.to_int z).

Definition strval (v : php_value) : string :=
  match v with
  | PInt z => strval_int z
  | PStr s => s
  end.

(** ** [sprintf]

    The directives used by the renderer: [%s], [%d], the positional forms
    [%1$s], [%2$s], ... and [%%].  Anything else (flags, width, precision,
    a missing argument) is an error, [None]. *)

Inductive fstate :=
| Lit               (* copying literal text *)
| Pct               (* just read a percent sign *)
| Num (n : nat)     (* reading the digits of an argument number *)
| Pos (n : nat).    (* read an argument number and its dollar sign *)

Definition digit_of (c : ascii) : option nat :=
  let n := nat_of_ascii c in
  if ((48 <=? n) && (n <=? 57))%nat then Some (n - 48)%nat else None.

(** One conversion: [%s] prints any value as a string, [%d] an integer. *)
Definition convert (c : ascii) (v : php_value) : option string :=
  if Ascii.eqb c "s" then Some (strval v)
  else if Ascii.eqb c "d" then
    match v with
    | PInt z => Some (strval_int z)
    | PStr _ => None
    end
  else None.

Fixpoint sprintf_go (fmt : string) (st : fstate) (args : list php_value)
    (next : nat) : option string :=
  match fmt with
  | EmptyString =>
      match st with
      | Lit => Some EmptyString
      | _ => None
      end
  | String c fmt' =>
      match st with
      | Lit =>
          if Ascii.eqb c "%" then sprintf_go fmt' Pct args next
          else String c <$> sprintf_go fmt' Lit args next
      | Pct =>
          if Ascii.eqb c "%" then String c <$> sprintf_go fmt' Lit args next
          else
            match digit_of c with
            | Some d => sprintf_go fmt' (Num d) args next
            | None =>
                v ← nth_error args next;
                s ← convert c v;
                r ← sprintf_go fmt' Lit args (S next);
                Some (s +:+ r)
            end
      | Num n =>
          match digit_of c with
          | Some d => sprintf_go fmt' (Num (10 * n + d)) args next
          | None =>
              if Ascii.eqb c "$" then sprintf_go fmt' (Pos n) args next
              else None
          end
      | Pos n =>
          match n with
          | O => None
          | S i =>
              v ← nth_error args i;
              s ← convert c v;
              r ← sprintf_go fmt' Lit args next;
              Some (s +:+ r)
          end
      end
  end.

Definition sprintf (fmt : string) (args : list php_value) : option string :=
  sprintf_go fmt Lit args 0.

(** ** The translation functions of WordPress core

    [__] and [_n] belong to WordPress, not to this repository.  They are
    modelled for a site on which no translation is loaded: [__] returns
    its argument, [_n] picks the singular form exactly for the number 1. *)

Definition __ (text : string) : string := text.

Definition _n (single plural : string) (number : Z) : string :=
  if number =? 1 then single else plural.

(** ** The renderer

    Lines 20 to 32 of the source read [$current_page], [$posts_per_page]
    and [$max_rows] (the query's [found_posts]) from the WordPress query,
    and [get_block_wrapper_attributes] gives [$wrapper_attributes]; these
    are the arguments here, together with [$attributes['displayType']].
    [$start] and [$end] are computed before the [switch], whatever the
    display type, and are only read in the [range-display] case. *)

Definition render_block_core_query_total
    (wrapper_attributes displayType : string)
    (current_page posts_per_page max_rows : Z) : option string :=
  let start :=
    d ← php_sub current_page 1;
    m ← php_mul d posts_per_page;
    php_add m 1 in
  let end_ :=
    s ← start;
    a ← php_add s posts_per_page;
    b ← php_sub a 1;
    Some (Z.min b max_rows) in
  output ←
    (if String.eqb displayType "range-display" then
       s ← start;
       e ← end_;
       range_text ←
         (if s =? e then
            sprintf (__ "Displaying %1$s of %2$s")
              [ PStr ("<strong>" +:+ strval_int s +:+ "</strong>");
                PStr ("<strong>" +:+ strval_int max_rows +:+ "</strong>") ]
          else
            sprintf (__ "Displaying %1$s – %2$s of %3$s")
              [ PStr ("<strong>" +:+ strval_int s +:+ "</strong>");
                PStr ("<strong>" +:+ strval_int e +:+ "</strong>");
                PStr ("<strong>" +:+ strval_int max_rows +:+ "</strong>") ]);
       sprintf "<p>%s</p>" [ PStr range_text ]
     else
       sprintf "<p><strong>%d</strong> %s</p>"
         [ PInt max_rows;
           PStr (_n "result found" "results found" max_rows) ]);
  sprintf "<div %1$s>%2$s</div>" [ PStr wrapper_attributes; PStr output ].

(** The range the source computes, over the integers. *)
Definition range_start (current_page posts_per_page : Z) : Z :=
  (current_page - 1) * posts_per_page + 1.

Definition range_end (current_page posts_per_page max_rows : Z) : Z :=
  Z.min (range_start current_page posts_per_page + posts_per_page - 1) max_rows.

(** Every intermediate value of the range computation is a PHP integer. *)
Definition range_fits (current_page posts_per_page : Z) : Prop :=
  is_php_int (current_page - 1) = true /\
  is_php_int ((current_page - 1) * posts_per_page) = true /\
  is_php_int (range_start current_page posts_per_page) = true /\
  is_php_int (range_start current_page posts_per_page + posts_per_page) = true /\
  is_php_int (range_start current_page posts_per_page + posts_per_page - 1) = true.

(** ** Vocabulary of the statements *)

(** A number as the renderer prints it inside a sentence. *)
Definition strong (z : Z) : string :=
  "<strong>" +:+ strval_int z +:+ "</strong>".

(** The two sentences of the range display, numbers in [strong]. *)
Definition range_text (first last total : Z) : string :=
  if first =? last then
    "Displaying " +:+ strong first +:+ " of " +:+ strong total
  else
    "Displaying " +:+ strong first +:+ " – " +:+ strong last
      +:+ " of " +:+ strong total.

(** The sentence of the total display. *)
Definition total_text (total : Z) : string :=
  strong total +:+ " "
    +:+ (if total =? 1 then "result found" else "results found").

(** A sentence in its paragraph, in the block's wrapper. *)
Definition block_markup (wrapper_attributes sentence : string) : string :=
  "<div " +:+ wrapper_attributes +:+ "><p>" +:+ sentence +:+ "</p></div>".

(** ** Sample data *)

Definition dquote : string := String (ascii_of_nat 34) EmptyString.

(** The attributes [get_block_wrapper_attributes] gives a plain block. *)
Definition example_wrapper : string :=
  "class=" +:+ dquote +:+ "wp-block-query-total" +:+ dquote.

(** ** The page and the query

    Lines 20 to 32 of the source: the page number, and the query whose
    [found_posts] and [posts_per_page] the renderer reads. *)

(** The white space PHP skips in front of a numeric string. *)
Definition is_php_space (c : ascii) : bool :=
  existsb (Ascii.eqb c) [ " "; "009"; "010"; "011"; "012"; "013" ]%char.

Fixpoint skip_spaces (s : string) : string :=
  match s with
  | String c r => if is_php_space c then skip_spaces r else s
  | EmptyString => s
  end.

(** The decimal digits in front of a string, as a number ([None] when
    there is none), and what follows them. *)
Fixpoint read_digits (s : string) (acc : option Z) : option Z * string :=
  match s with
  | String c r =>
      match digit_of c with
      | Some d => read_digits r (Some (10 * default 0 acc + Z.of_nat d))
      | None => (acc, s)
      end
  | EmptyString => (acc, s)
  end.

(** What follows the digits may continue a floating-point number. *)
Definition float_like (after_digits : bool) (rest : string) : bool :=
  match rest with
  | String c _ =>
      Ascii.eqb c "."
      || (after_digits && (Ascii.eqb c "e" || Ascii.eqb c "E"))
  | EmptyString => false
  end.

(** The cast [(int)] of a string: white space, a sign, decimal digits;
    whatever follows is ignored, and a string that does not begin with a
    number is 0.  Floating-point forms and numbers beyond the integers go
    through floats and are outside this model: [None]. *)
Definition int_cast (s : string) : option Z :=
  let s1 := skip_spaces s in
  let '(negative, s2) :=
    match s1 with
    | String c r =>
        if Ascii.eqb c "-" then (true, r)
        else if Ascii.eqb c "+" then (false, r)
        else (false, s1)
    | EmptyString => (false, s1)
    end in
  match read_digits s2 None with
  | (Some n, rest) =>
      if float_like true rest then None
      else m ← php_int n; Some (if negative : bool then - m else m)
  | (None, rest) =>
      if float_like false rest then None else Some 0
  end.

(** What the renderer reads of a [WP_Query]. *)
Record query := {
  found_posts : Z;
  posts_per_page : Z;
}.

Record block_env := {
  context_inherit : option bool;    (* $block->context['query']['inherit'] *)
  context_queryId : option Z;       (* $block->context['queryId'] *)
  query_var_paged : option Z;       (* the 'paged' variable of $wp_query *)
  GET : gmap string string;         (* $_GET *)
  wp_query : query;                 (* the main query *)
  new_WP_Query : Z → query;         (* the block's own query, for a page *)
}.

(** [isset( context['query']['inherit'] ) && context['query']['inherit']] *)
Definition inherits (env : block_env) : bool :=
  match context_inherit env with
  | Some b => b
  | None => false
  end.

Definition page_key_of (queryId : option Z) : string :=
  match queryId with
  | Some id => "query-" +:+ strval_int id +:+ "-page"
  | None => "query-page"
  end.

Definition page_key (env : block_env) : string :=
  page_key_of (context_queryId env).

Definition current_page (env : block_env) : option Z :=
  if inherits env then Some (Z.max 1 (default 1 (query_var_paged env)))
  else
    match GET env !! page_key env with
    | Some v => int_cast v
    | None => Some 1
    end.

Definition query_to_use (env : block_env) (page : Z) : query :=
  if inherits env then wp_query env else new_WP_Query env page.

(** The whole function: lines 20 to 32, then the renderer above. *)
Definition render_query_total_block (env : block_env)
    (wrapper_attributes displayType : string) : option string :=
  page ← current_page env;
  let q := query_to_use env page in
  render_block_core_query_total wrapper_attributes displayType
    page (posts_per_page q) (found_posts q).

Definition with_GET (g : gmap string string) (env : block_env) : block_env :=
  {| context_inherit := context_inherit env;
     context_queryId := context_queryId env;
     query_var_paged := query_var_paged env;
     GET := g;
     wp_query := wp_query env;
     new_WP_Query := new_WP_Query env |}.

(** A query block with id 3, not inheriting, 25 posts by 10. *)
Definition example_env : block_env :=
  {| context_inherit := Some false;
     context_queryId := Some 3;
     query_var_paged := None;
     GET := ∅;
     wp_query := {| found_posts := 120; posts_per_page := 12 |};
     new_WP_Query := λ _, {| found_posts := 25; posts_per_page := 10 |} |}.

(** The same block inheriting the main query. *)
Definition example_env_inherit : block_env :=
  {| context_inherit := Some true;
     context_queryId := Some 3;
     query_var_paged := Some 0;
     GET := {[ "query-3-page" := "7"%string ]};
     wp_query := {| found_posts := 120; posts_per_page := 12 |};
     new_WP_Query := λ _, {| found_posts := 25; posts_per_page := 10 |} |}.

End QueryTotal.

(* ===================================================================== *)
(** * Part II: the LinkControl component (JavaScript, React)              *)
(* ===================================================================== *)

Module LinkControl.

(** ** JavaScript strings

    A JavaScript string is a sequence of UTF-16 code units. *)

Abbreviation jsstring := (list N).

(** A string of ASCII characters as a JavaScript string. *)
Definition js (s : string) : jsstring :=
  map N_of_ascii (list_ascii_of_string s).

(** A string is truthy when it is not empty. *)
Definition truthy_string (s : jsstring) : bool :=
  match s with
  | [] => false
  | _ :: _ => true
  end.

(** The code units that [String.prototype.trim] removes: the WhiteSpace
    and LineTerminator productions of ECMAScript. *)
Definition is_white_space (c : N) : bool :=
  existsb (N.eqb c)
    [ 9; 10; 11; 12; 13; 32; 160; 5760; 8232; 8233; 8239; 8287; 12288; 65279 ]%N
  || ((8192 <=? c) && (c <=? 8202))%N.

Fixpoint trim_start (s : jsstring) : jsstring :=
  match s with
  | [] => []
  | c :: s' => if is_white_space c then trim_start s' else s
  end.

Definition trim_end (s : jsstring) : jsstring :=
  rev (trim_start (rev s)).

Definition trim (s : jsstring) : jsstring :=
  trim_end (trim_start s).

(** ** Link values

    [WPLinkControlValue] as its typedef declares it: [url] and [title]
    are strings, [None] when the property is missing ([undefined]); every
    other own property (the suggestion's [id] and [type], [opensInNewTab],
    custom settings) is kept in [others]. *)

Inductive jsval :=
| JUndefined
| JNull
| JBool (b : bool)
| JNumber (z : Z)
| JString (s : jsstring).

Record WPLinkControlValue := {
  url : option jsstring;
  title : option jsstring;
  others : gmap string jsval;
}.

#[global] Instance jsval_eq_dec : EqDecision jsval.
Proof. solve_decision. Defined.

#[global] Instance WPLinkControlValue_eq_dec : EqDecision WPLinkControlValue.
Proof. solve_decision. Defined.

(** [value?.url], [value?.title] and the properties copied by [...value];
    spreading [undefined] copies nothing. *)
Definition opt_url (v : option WPLinkControlValue) : option jsstring :=
  v ≫= url.

Definition opt_title (v : option WPLinkControlValue) : option jsstring :=
  v ≫= title.

Definition spread_others (v : option WPLinkControlValue) : gmap string jsval :=
  match v with
  | Some o => others o
  | None => ∅
  end.

(** [a !== b] where [a] is a string and [b] a string or [undefined]. *)
Definition strict_neq (a : jsstring) (b : option jsstring) : bool :=
  bool_decide (Some a ≠ b).

(** ** Props, state, refs *)

Record Props := {
  value : option WPLinkControlValue;
  forceIsEditingLink : option bool;
  inputValue : option jsstring;
  hasTextControl : bool;
  onRemove : bool;              (* whether a removal handler is passed *)
}.

(** [inputValue: propInputValue = ''] *)
Definition propInputValue (p : Props) : jsstring :=
  default [] (inputValue p).

(** The state of the hooks: [isEditingLink] of [useState], the two drafts
    of [useInternalInputValue] and [isCreatingPage] of [useCreatePage]. *)
Record State := {
  isEditingLink : bool;
  internalUrlInputValue : jsstring;
  internalTextInputValue : jsstring;
  isCreatingPage : bool;
}.

Abbreviation node := N (only parsing).

Record Refs := {
  isMounting : bool;
  wrapperNode : option node;
  textInputRef : option node;
  isEndingEditWithFocus : bool;
}.

(** What the component reads from the document: the [div] it rendered,
    the text input a child attached to [textInputRef] (if one is shown),
    the elements [focus.focusable.find] returns for a container, in
    document order, and whether a container holds the active element. *)
Record Dom := {
  wrapper_div : node;
  text_input : option node;
  focusable_find : node -> list node;
  contains_active : node -> bool;
}.

(** What the component does to the outside: calls of [onChange] and of
    [focus()] on an element, oldest first. *)
Inductive Event :=
| OnChange (v : WPLinkControlValue)
| FocusCall (n : node).

#[global] Instance Event_eq_dec : EqDecision Event.
Proof. solve_decision. Defined.

Record Component := {
  st : State;
  refs : Refs;
  out : list Event;
}.

Definition setIsEditingLink (b : bool) (c : Component) : Component :=
  {| st := {| isEditingLink := b;
              internalUrlInputValue := internalUrlInputValue (st c);
              internalTextInputValue := internalTextInputValue (st c);
              isCreatingPage := isCreatingPage (st c) |};
     refs := refs c;
     out := out c |}.

Definition set_isMounting (b : bool) (c : Component) : Component :=
  {| st := st c;
     refs := {| isMounting := b;
                wrapperNode := wrapperNode (refs c);
                textInputRef := textInputRef (refs c);
                isEndingEditWithFocus := isEndingEditWithFocus (refs c) |};
     out := out c |}.

Definition set_isEndingEditWithFocus (b : bool) (c : Component) : Component :=
  {| st := st c;
     refs := {| isMounting := isMounting (refs c);
                wrapperNode := wrapperNode (refs c);
                textInputRef := textInputRef (refs c);
                isEndingEditWithFocus := b |};
     out := out c |}.

Definition emit (e : Event) (c : Component) : Component :=
  {| st := st c; refs := refs c; out := out c ++ [e] |}.

(** ** Initial state *)

(** The argument of [useState]:
    [forceIsEditingLink !== undefined ? forceIsEditingLink
                                      : ! value || ! value.url]. *)
Definition initialIsEditingLink (p : Props) : bool :=
  match forceIsEditingLink p with
  | Some b => b
  | None =>
      match value p with
      | None => true
      | Some v =>
          match url v with
          | None => true
          | Some u => negb (truthy_string u)
          end
      end
  end.

Inductive Mode := Editing | Viewing.

Definition mode_of (editing : bool) : Mode :=
  if editing then Editing else Viewing.

(** ** Values derived on every render *)

(** [propInputValue || internalUrlInputValue] *)
Definition currentUrlInputValue (p : Props) (s : State) : jsstring :=
  if truthy_string (propInputValue p) then propInputValue p
  else internalUrlInputValue s.

(** [! currentUrlInputValue?.trim()?.length] *)
Definition currentInputIsEmpty (p : Props) (s : State) : bool :=
  (length (trim (currentUrlInputValue p s)) =? 0)%nat.

(** The flags below are used as conditions; each is the truthiness of the
    JavaScript expression. *)

(** [onRemove && value && ! isEditingLink && ! isCreatingPage] *)
Definition shownUnlinkControl (p : Props) (s : State) : bool :=
  onRemove p && bool_decide (is_Some (value p))
  && negb (isEditingLink s) && negb (isCreatingPage s).

(** [value?.url?.trim()?.length > 0 && hasTextControl]; the comparison
    [undefined > 0] is false. *)
Definition showTextControl (p : Props) : bool :=
  match opt_url (value p) with
  | None => false
  | Some u => (0 <? length (trim u))%nat && hasTextControl p
  end.

(** [( isEditingLink || ! value ) && ! isCreatingPage] *)
Definition shouldShowEditControls (p : Props) (s : State) : bool :=
  (isEditingLink s || negb (bool_decide (is_Some (value p))))
  && negb (isCreatingPage s).

(** [value && ! isEditingLink && ! isCreatingPage] *)
Definition shouldShowLinkPreview (p : Props) (s : State) : bool :=
  bool_decide (is_Some (value p))
  && negb (isEditingLink s) && negb (isCreatingPage s).

(** [isLoading = isCreatingPage] *)
Definition isLoading (s : State) : bool := isCreatingPage s.

(** ** Event handlers

    A handler runs between two commits, so the props and the state it
    closes over are those of the last render. *)

(** [wrapperNode.current?.contains( ...activeElement )], made a boolean
    by [!!]; then [setIsEditingLink( false )]. *)
Definition stopEditing (dom : Dom) (c : Component) : Component :=
  let within :=
    match wrapperNode (refs c) with
    | Some w => contains_active dom w
    | None => false
    end in
  setIsEditingLink false (set_isEndingEditWithFocus within c).

(** [onChange( { ...updatedValue,
                 title: internalTextInputValue || updatedValue?.title } )] *)
Definition handleSelectSuggestion (dom : Dom)
    (updatedValue : option WPLinkControlValue) (c : Component) : Component :=
  let text := internalTextInputValue (st c) in
  let next :=
    {| url := opt_url updatedValue;
       title := if truthy_string text then Some text
                else opt_title updatedValue;
       others := spread_others updatedValue |} in
  stopEditing dom (emit (OnChange next) c).

Definition handleSubmit (p : Props) (dom : Dom) (c : Component) : Component :=
  let current := currentUrlInputValue p (st c) in
  let text := internalTextInputValue (st c) in
  let c1 :=
    if strict_neq current (opt_url (value p))
       || strict_neq text (opt_title (value p))
    then
      emit (OnChange {| url := Some current;
                        title := Some text;
                        others := spread_others (value p) |}) c
    else c in
  stopEditing dom c1.

Definition onEditClick (c : Component) : Component :=
  setIsEditingLink true c.

(** ** Effects *)

(** The first effect, dependencies [[ forceIsEditingLink ]]. *)
Definition syncEffect (p : Props) (c : Component) : Component :=
  match forceIsEditingLink p with
  | Some b =>
      if bool_decide (b ≠ isEditingLink (st c)) then setIsEditingLink b c
      else c
  | None => c
  end.

(** [textInputRef?.current ? 1 : 0] *)
Definition whichFocusTargetIndex (r : Refs) : nat :=
  match textInputRef r with
  | Some _ => 1
  | None => 0
  end.

(** [focus.focusable.find( w )[ index ] || w] *)
Definition nextFocusTarget (dom : Dom) (r : Refs) (w : node) : node :=
  default w (focusable_find dom w !! whichFocusTargetIndex r).

(** The second effect, dependencies [[ isEditingLink, isCreatingPage ]].
    Without a node in [wrapperNode] there is nothing to call [focus] on
    and the effect throws: [None]. *)
Definition focusEffect (dom : Dom) (c : Component) : option Component :=
  if isMounting (refs c) then Some (set_isMounting false c)
  else
    w ← wrapperNode (refs c);
    Some (set_isEndingEditWithFocus false
            (emit (FocusCall (nextFocusTarget dom (refs c) w)) c)).

(** ** React: commits

    React remembers the dependencies of each effect at the last commit
    ([None] before the first one).  After a render it attaches the refs of
    the rendered elements, then runs, in the order of the source, every
    effect whose dependencies differ from the remembered ones; on the
    first commit it runs them all.  The effects are the two written in
    this file; those inside the hooks [useInternalInputValue] and
    [useCreatePage], which own the drafts and [isCreatingPage], are not
    part of it. *)

Record Fiber := {
  comp : Component;
  deps_sync : option (option bool);
  deps_focus : option (bool * bool);
}.

Definition deps_changed {A} `{EqDecision A} (last : option A) (now : A) : bool :=
  match last with
  | None => true
  | Some d => bool_decide (d ≠ now)
  end.

Definition attach_refs (dom : Dom) (c : Component) : Component :=
  {| st := st c;
     refs := {| isMounting := isMounting (refs c);
                wrapperNode := Some (wrapper_div dom);
                textInputRef := text_input dom;
                isEndingEditWithFocus := isEndingEditWithFocus (refs c) |};
     out := out c |}.

Definition focus_deps (s : State) : bool * bool :=
  (isEditingLink s, isCreatingPage s).

Definition commit (p : Props) (dom : Dom) (f : Fiber) : option Fiber :=
  let rendered := st (comp f) in
  let c0 := attach_refs dom (comp f) in
  let c1 :=
    if deps_changed (deps_sync f) (forceIsEditingLink p)
    then syncEffect p c0 else c0 in
  c2 ← (if deps_changed (deps_focus f) (focus_deps rendered)
        then focusEffect dom c1 else Some c1);
  Some {| comp := c2;
          deps_sync := Some (forceIsEditingLink p);
          deps_focus := Some (focus_deps rendered) |}.

(** The component of a commit once its refs are attached and the first
    effect has run, if it had to. *)
Definition synced (p : Props) (dom : Dom) (f : Fiber) : Component :=
  if deps_changed (deps_sync f) (forceIsEditingLink p)
  then syncEffect p (attach_refs dom (comp f))
  else attach_refs dom (comp f).

(** The component before its first commit. *)
Definition mount (p : Props) (url_draft text_draft : jsstring)
    (creating : bool) : Fiber :=
  {| comp := {| st := {| isEditingLink := initialIsEditingLink p;
                         internalUrlInputValue := url_draft;
                         internalTextInputValue := text_draft;
                         isCreatingPage := creating |};
                refs := {| isMounting := true;
                           wrapperNode := None;
                           textInputRef := None;
                           isEndingEditWithFocus := false |};
                out := [] |};
     deps_sync := None;
     deps_focus := None |}.

(** ** Runs

    A run of the component is its first commit followed by one commit for
    each later render.  Between two commits the handlers, the hooks and
    the effects may have changed the state in any way, so each later
    render comes with the state it renders (and with its props and its
    document). *)

Definition with_state (s : State) (f : Fiber) : Fiber :=
  {| comp := {| st := s; refs := refs (comp f); out := out (comp f) |};
     deps_sync := deps_sync f;
     deps_focus := deps_focus f |}.

Fixpoint rerender (frames : list (Props * Dom * State)) (f : Fiber)
    : option Fiber :=
  match frames with
  | [] => Some f
  | (p, dom, s) :: rest =>
      f' ← commit p dom (with_state s f);
      rerender rest f'
  end.

(** ** Vocabulary of the statements *)

(** The element the focus effect is to focus: among the focusable
    descendants of the root container, the second one when a text input is
    present and the first one otherwise; the root container itself when
    there is no such descendant. *)
Definition focus_target (dom : Dom) : node :=
  let index := if text_input dom is Some _ then 1%nat else 0%nat in
  match focusable_find dom (wrapper_div dom) !! index with
  | Some n => n
  | None => wrapper_div dom
  end.

(** One [focus()] call for each render whose [isEditingLink] or
    [isCreatingPage] differs from that of the render before it; [editing]
    and [creating] are those of the render before the first frame. *)
Fixpoint focus_calls (editing creating : bool)
    (frames : list (Props * Dom * State)) : list Event :=
  match frames with
  | [] => []
  | (_, dom, s) :: rest =>
      (if decide (isEditingLink s = editing ∧ isCreatingPage s = creating)
       then []
       else [ FocusCall (focus_target dom) ])
      ++ focus_calls (isEditingLink s) (isCreatingPage s) rest
  end.


(** A string that is empty or made of white space only. *)
Definition blank_string (s : jsstring) : Prop :=
  Forall (λ c, is_white_space c = true) s.

(** ** Sample data *)

Definition example_link : WPLinkControlValue :=
  {| url := Some (js "https://wordpress.org");
     title := Some (js "WordPress");
     others := {[ "opensInNewTab" := JBool true ]} |}.

Definition example_suggestion : WPLinkControlValue :=
  {| url := Some (js "https://example.org/about");
     title := Some (js "About");
     others := {[ "id" := JNumber 7; "type" := JString (js "page") ]} |}.

Definition example_props : Props :=
  {| value := Some example_link;
     forceIsEditingLink := None;
     inputValue := None;
     hasTextControl := true;
     onRemove := false |}.

Definition empty_props : Props :=
  {| value := None;
     forceIsEditingLink := None;
     inputValue := None;
     hasTextControl := true;
     onRemove := false |}.

Definition with_force (b : option bool) (p : Props) : Props :=
  {| value := value p;
     forceIsEditingLink := b;
     inputValue := inputValue p;
     hasTextControl := hasTextControl p;
     onRemove := onRemove p |}.

Definition with_inputValue (s : option jsstring) (p : Props) : Props :=
  {| value := value p;
     forceIsEditingLink := forceIsEditingLink p;
     inputValue := s;
     hasTextControl := hasTextControl p;
     onRemove := onRemove p |}.

(** A wrapper (node 1) holding a text input (2), the URL input (3) and a
    button (4); the active element is inside the wrapper. *)
Definition example_dom : Dom :=
  {| wrapper_div := 1%N;
     text_input := Some 2%N;
     focusable_find := λ w, if (w =? 1)%N then [2; 3; 4]%N else [];
     contains_active := λ w, (w =? 1)%N |}.

(** A wrapper without a focusable element. *)
Definition bare_dom : Dom :=
  {| wrapper_div := 1%N;
     text_input := None;
     focusable_find := λ _, [];
     contains_active := λ _, false |}.

Definition example_state (editing : bool) : State :=
  {| isEditingLink := editing;
     internalUrlInputValue := js "https://wordpress.org";
     internalTextInputValue := js "WordPress";
     isCreatingPage := false |}.

Definition example_state_creating (editing : bool) : State :=
  {| isEditingLink := editing;
     internalUrlInputValue := js "https://wordpress.org";
     internalTextInputValue := js "WordPress";
     isCreatingPage := true |}.

Definition example_component (editing : bool) : Component :=
  {| st := example_state editing;
     refs := {| isMounting := false;
                wrapperNode := Some 1%N;
                textInputRef := Some 2%N;
                isEndingEditWithFocus := false |};
     out := [] |}.

(** A mounted component in viewing mode, last committed without a
    forced-editing flag. *)
Definition example_fiber : Fiber :=
  {| comp := example_component false;
     deps_sync := Some None;
     deps_focus := Some (false, false) |}.

(** ** Events between commits

    A handler that runs on a committed component; React's memory of the
    dependencies stays that of the last commit. *)
Definition handled (h : Component → Component) (f : Fiber) : Fiber :=
  {| comp := h (comp f);
     deps_sync := deps_sync f;
     deps_focus := deps_focus f |}.

(** The parent stores a value as the new [value] prop. *)
Definition with_value (v : option WPLinkControlValue) (p : Props) : Props :=
  {| value := v;
     forceIsEditingLink := forceIsEditingLink p;
     inputValue := inputValue p;
     hasTextControl := hasTextControl p;
     onRemove := onRemove p |}.

(** The value [handleSubmit] passes to [onChange] when it calls it. *)
Definition submitted (p : Props) (s : State) : WPLinkControlValue :=
  {| url := Some (currentUrlInputValue p s);
     title := Some (internalTextInputValue s);
     others := spread_others (value p) |}.

(** A fiber is settled when its component is mounted and renders the
    [isEditingLink] and [isCreatingPage] of its last commit. *)
Definition settled (f : Fiber) : Prop :=
  isMounting (refs (comp f)) = false
  ∧ deps_focus f = Some (focus_deps (st (comp f))).

(** A mounted component in editing mode, last committed under
    [forceIsEditingLink = false]. *)
Definition example_fiber_editing : Fiber :=
  {| comp := example_component true;
     deps_sync := Some (Some false);
     deps_focus := Some (true, false) |}.

(** [example_fiber] after the commit in which the forced-editing flag
    became [true]. *)
Definition example_fiber_synced : Fiber :=
  {| comp := setIsEditingLink true
               (attach_refs example_dom (example_component false));
     deps_sync := Some (Some true);
     deps_focus := Some (false, false) |}.

End LinkControl.

(* ===================================================================== *)
(** * Part III: properties of the LinkControl component                   *)
(* ===================================================================== *)

Module LinkControlProofs.
Import LinkControl.

(** ** Small facts shared by the proofs *)

Lemma strict_neq_false (a : jsstring) (b : option jsstring) :
  strict_neq a b = false <-> b = Some a.
Proof.
  unfold strict_neq. rewrite bool_decide_eq_false. split.
  - intros H. destruct (decide (Some a = b)) as [<-|Hne]; [done|]. by destruct H.
  - intros -> H. by apply H.
Qed.

Lemma stopEditing_out dom c : out (stopEditing dom c) = out c.
Proof. reflexivity. Qed.

Lemma stopEditing_isEditingLink dom c :
  isEditingLink (st (stopEditing dom c)) = false.
Proof. reflexivity. Qed.

Lemma truthy_string_nonempty (s : jsstring) :
  truthy_string s = true <-> s ≠ [].
Proof. destruct s; simpl; split; congruence. Qed.

(** ** Submit *)

Lemma handleSubmit_out (p : Props) (dom : Dom) (c : Component) :
  out (handleSubmit p dom c) =
    out c ++
    (if decide (opt_url (value p) = Some (currentUrlInputValue p (st c))
                ∧ opt_title (value p) = Some (internalTextInputValue (st c)))
     then []
     else [ OnChange {| url := Some (currentUrlInputValue p (st c));
                        title := Some (internalTextInputValue (st c));
                        others := spread_others (value p) |} ]).
Proof.
  unfold handleSubmit. rewrite stopEditing_out.
  destruct (strict_neq (currentUrlInputValue p (st c)) (opt_url (value p)))
    eqn:Hu;
    destruct (strict_neq (internalTextInputValue (st c)) (opt_title (value p)))
      eqn:Ht; simpl.
  - case_decide as H; [|done]. destruct H as [H _].
    apply strict_neq_false in H. congruence.
  - case_decide as H; [|done]. destruct H as [H _].
    apply strict_neq_false in H. congruence.
  - case_decide as H; [|done]. destruct H as [_ H].
    apply strict_neq_false in H. congruence.
  - apply strict_neq_false in Hu, Ht. case_decide as H.
    + by rewrite app_nil_r.
    + destruct H. by split.
Qed.


(** Submitting the committed link unchanged calls nothing. *)
Example submit_unchanged :
  out (handleSubmit example_props example_dom (example_component true)) = []
  ∧ isEditingLink
      (st (handleSubmit example_props example_dom (example_component true)))
    = false.
Proof. split; reflexivity. Qed.

(** A committed link without a [title]: the draft title is the empty
    string, which is not [undefined], so submit calls [onChange]. *)
Example submit_missing_title :
  let link := {| url := Some (js "https://wordpress.org");
                 title := None;
                 others := ∅ |} in
  let p := {| value := Some link;
              forceIsEditingLink := None;
              inputValue := None;
              hasTextControl := false;
              onRemove := false |} in
  let c := {| st := {| isEditingLink := true;
                       internalUrlInputValue := js "https://wordpress.org";
                       internalTextInputValue := [];
                       isCreatingPage := false |};
              refs := refs (example_component true);
              out := [] |} in
  out (handleSubmit p example_dom c)
  = [ OnChange {| url := Some (js "https://wordpress.org");
                  title := Some [];
                  others := ∅ |} ].
Proof. reflexivity. Qed.

(** Without a committed value every submit calls [onChange]. *)
Example submit_without_value :
  let c := {| st := {| isEditingLink := true;
                       internalUrlInputValue := js "wordpress.org";
                       internalTextInputValue := [];
                       isCreatingPage := false |};
              refs := refs (example_component true);
              out := [] |} in
  out (handleSubmit empty_props example_dom c)
  = [ OnChange {| url := Some (js "wordpress.org");
                  title := Some [];
                  others := ∅ |} ].
Proof. reflexivity. Qed.

(** ** The initial mode *)



(** ** Trimming *)

Lemma trim_start_blank (s : jsstring) :
  trim_start s = [] ↔ blank_string s.
Proof.
  unfold blank_string. induction s as [|c s IH]; simpl.
  - split; [constructor | done].
  - destruct (is_white_space c) eqn:Hc.
    + rewrite IH. split; [by constructor | by inversion 1].
    + split; [done | inversion 1; congruence].
Qed.

Lemma trim_start_suffix (s : jsstring) :
  ∃ l, s = l ++ trim_start s ∧ blank_string l.
Proof.
  induction s as [|c s (l & Hl & Hb)]; simpl.
  - exists []. split; [done | constructor].
  - destruct (is_white_space c) eqn:Hc.
    + exists (c :: l). split; [simpl; congruence | by constructor].
    + exists []. split; [done | constructor].
Qed.

Lemma blank_string_rev (s : jsstring) : blank_string (rev s) ↔ blank_string s.
Proof.
  unfold blank_string. split; intros H.
  - rewrite <- (rev_involutive s). by apply Forall_rev.
  - by apply Forall_rev.
Qed.

Lemma trim_blank (s : jsstring) : trim s = [] ↔ blank_string s.
Proof.
  unfold trim, trim_end. split.
  - intros H. apply (f_equal (@rev N)) in H. rewrite rev_involutive in H.
    simpl in H. apply trim_start_blank in H.
    apply (proj1 (blank_string_rev _)) in H.
    destruct (trim_start_suffix s) as (l & Hl & Hb).
    rewrite Hl. apply Forall_app. split; [done | apply H].
  - intros H. apply trim_start_blank in H. by rewrite H.
Qed.

Lemma trim_length_pos (s : jsstring) :
  (0 < length (trim s))%nat ↔ ¬ blank_string s.
Proof.
  rewrite <- trim_blank. destruct (trim s); simpl; split; try done; lia.
Qed.

(** ** The text control *)

(** C4: [showTextControl] is false whenever the committed [url] is absent,
    empty or white space only, whatever [hasTextControl] is; it is true
    exactly when the trimmed committed [url] has a length above 0 and
    [hasTextControl] is set. *)
Theorem showTextControl_spec (p : Props) :
  (opt_url (value p) = None
   ∨ (∃ u, opt_url (value p) = Some u ∧ blank_string u) →
   showTextControl p = false)
  ∧ (showTextControl p = true ↔
       (∃ u, opt_url (value p) = Some u ∧ (0 < length (trim u))%nat)
       ∧ hasTextControl p = true).
Proof.
  unfold showTextControl. split.
  - intros [->|(u & -> & Hu)]; [done|].
    apply trim_blank in Hu. by rewrite Hu.
  - destruct (opt_url (value p)) as [u|].
    + rewrite andb_true_iff, Nat.ltb_lt. split.
      * intros [Hl Ht]. eauto.
      * intros [(u' & [= <-] & Hl) Ht]. done.
    + split; [done | by intros [(u & ? & _) _]].
Qed.

Lemma showTextControl_spec_witness :
  showTextControl
    {| value := Some {| url := Some (js "  "); title := None; others := ∅ |};
       forceIsEditingLink := None;
       inputValue := None;
       hasTextControl := true;
       onRemove := false |} = false
  ∧ showTextControl example_props = true.
Proof.
  split.
  - apply showTextControl_spec. right. exists (js "  ").
    split; [reflexivity | by repeat constructor].
  - apply showTextControl_spec. split; [|reflexivity].
    exists (js "https://wordpress.org"). split; [reflexivity | vm_compute; lia].
Defined.

(** ** Selecting a suggestion *)

(** C5: selecting a suggestion in [Editing] mode calls [onChange] exactly
    once, with the suggestion's properties and, as [title], the draft
    title when that is not empty and the suggestion's own title otherwise;
    the component is in [Viewing] mode afterwards. *)
Theorem handleSelectSuggestion_commits (dom : Dom)
    (s : WPLinkControlValue) (c : Component) :
  mode_of (isEditingLink (st c)) = Editing →
  let c' := handleSelectSuggestion dom (Some s) c in
  out c' =
    out c ++
    [ OnChange {| url := url s;
                  title := match internalTextInputValue (st c) with
                           | [] => title s
                           | draft => Some draft
                           end;
                  others := others s |} ]
  ∧ mode_of (isEditingLink (st c')) = Viewing.
Proof.
  intros _ c'. subst c'. unfold handleSelectSuggestion.
  rewrite stopEditing_out, stopEditing_isEditingLink. split; [|done].
  simpl. by destruct (internalTextInputValue (st c)).
Qed.

Lemma handleSelectSuggestion_commits_witness :
  out (handleSelectSuggestion example_dom (Some example_suggestion)
         (example_component true))
  = [ OnChange {| url := Some (js "https://example.org/about");
                  title := Some (js "WordPress");
                  others := others example_suggestion |} ]
  ∧ mode_of (isEditingLink (st (handleSelectSuggestion example_dom
                                  (Some example_suggestion)
                                  (example_component true)))) = Viewing.
Proof.
  exact (handleSelectSuggestion_commits example_dom example_suggestion
           (example_component true) eq_refl).
Defined.

(** ** Edit controls and preview *)

(** C9: in every state (so in every reachable one) the flags
    [shouldShowEditControls] and [shouldShowLinkPreview] are not both
    true: the preview needs a committed value and no editing, the edit
    controls need editing or no committed value. *)
Theorem edit_controls_preview_exclusive (p : Props) (s : State) :
  ¬ (shouldShowEditControls p s = true ∧ shouldShowLinkPreview p s = true)
  ∧ (shouldShowLinkPreview p s = true →
       is_Some (value p) ∧ isEditingLink s = false)
  ∧ (shouldShowEditControls p s = true →
       isEditingLink s = true ∨ value p = None).
Proof.
  unfold shouldShowEditControls, shouldShowLinkPreview.
  assert (Hpreview :
    bool_decide (is_Some (value p)) && negb (isEditingLink s)
      && negb (isCreatingPage s) = true →
    is_Some (value p) ∧ isEditingLink s = false).
  { rewrite !andb_true_iff, negb_true_iff, bool_decide_eq_true. tauto. }
  assert (Hedit :
    (isEditingLink s || negb (bool_decide (is_Some (value p))))
      && negb (isCreatingPage s) = true →
    isEditingLink s = true ∨ value p = None).
  { rewrite andb_true_iff, orb_true_iff, negb_true_iff, bool_decide_eq_false.
    intros [[He|Hv] _]; [by left | right].
    by apply eq_None_not_Some. }
  split; [|by split].
  intros [He Hp]. destruct (Hpreview Hp) as [Hv Hn].
  destruct (Hedit He) as [Ht|Hnone].
  - congruence.
  - rewrite Hnone in Hv. by destruct Hv.
Qed.

Lemma edit_controls_preview_exclusive_witness :
  (is_Some (value example_props) ∧ isEditingLink (example_state false) = false)
  ∧ (isEditingLink (example_state true) = true ∨ value example_props = None).
Proof.
  split.
  - exact (proj1 (proj2 (edit_controls_preview_exclusive example_props
                           (example_state false))) eq_refl).
  - exact (proj2 (proj2 (edit_controls_preview_exclusive example_props
                           (example_state true))) eq_refl).
Defined.

(** ** The [inputValue] prop *)

(** C10: a non-empty [inputValue] prop is the current URL input: it is
    what [currentInputIsEmpty] trims, what submit compares with the
    committed [url], and the [url] submit commits; the internal draft URL
    is the current URL input only when the prop is absent or empty. *)
Theorem inputValue_prop_is_current (p : Props) (dom : Dom) (c : Component) :
  (∀ v, inputValue p = Some v → v ≠ [] →
     currentUrlInputValue p (st c) = v
     ∧ currentInputIsEmpty p (st c) = (length (trim v) =? 0)%nat
     ∧ out (handleSubmit p dom c) =
         out c ++
         (if decide (opt_url (value p) = Some v
                     ∧ opt_title (value p) = Some (internalTextInputValue (st c)))
          then []
          else [ OnChange {| url := Some v;
                             title := Some (internalTextInputValue (st c));
                             others := spread_others (value p) |} ]))
  ∧ (inputValue p = None ∨ inputValue p = Some [] →
     currentUrlInputValue p (st c) = internalUrlInputValue (st c)).
Proof.
  split.
  - intros v Hv Hne.
    assert (Hcur : currentUrlInputValue p (st c) = v).
    { unfold currentUrlInputValue, propInputValue. rewrite Hv. simpl.
      by destruct v. }
    split; [done|]. split.
    + unfold currentInputIsEmpty. by rewrite Hcur.
    + pose proof (handleSubmit_out p dom c) as H. by rewrite Hcur in H.
  - unfold currentUrlInputValue, propInputValue. by intros [->| ->].
Qed.

Lemma inputValue_prop_is_current_witness :
  currentUrlInputValue
    (with_inputValue (Some (js "https://example.org")) example_props)
    (example_state true) = js "https://example.org"
  ∧ currentUrlInputValue example_props (example_state true)
    = js "https://wordpress.org".
Proof.
  split.
  - apply (proj1 (inputValue_prop_is_current
                    (with_inputValue (Some (js "https://example.org"))
                       example_props)
                    example_dom (example_component true))
             (js "https://example.org") eq_refl).
    discriminate.
  - apply (proj2 (inputValue_prop_is_current example_props example_dom
                    (example_component true))).
    by left.
Defined.

(** ** The effects *)

Lemma syncEffect_refs p c : refs (syncEffect p c) = refs c.
Proof.
  unfold syncEffect. destruct (forceIsEditingLink p); [|done].
  by case_bool_decide.
Qed.

Lemma syncEffect_out p c : out (syncEffect p c) = out c.
Proof.
  unfold syncEffect. destruct (forceIsEditingLink p); [|done].
  by case_bool_decide.
Qed.

Lemma syncEffect_sets p c b :
  forceIsEditingLink p = Some b →
  isEditingLink (st (syncEffect p c)) = b.
Proof.
  unfold syncEffect. intros ->. case_bool_decide as H; [done|].
  destruct (decide (b = isEditingLink (st c))); [done | by destruct H].
Qed.

Lemma synced_refs p dom f :
  refs (synced p dom f) = refs (attach_refs dom (comp f)).
Proof. unfold synced. destruct deps_changed; [apply syncEffect_refs | done]. Qed.

Lemma synced_out p dom f : out (synced p dom f) = out (comp f).
Proof.
  unfold synced. destruct deps_changed; [|done].
  by rewrite syncEffect_out.
Qed.

Lemma nextFocusTarget_attached dom (r : Refs) :
  textInputRef r = text_input dom →
  nextFocusTarget dom r (wrapper_div dom) = focus_target dom.
Proof.
  intros Hr. unfold nextFocusTarget, focus_target, whichFocusTargetIndex.
  rewrite Hr.
  destruct (text_input dom);
    by destruct (focusable_find dom (wrapper_div dom) !! _).
Qed.

(** A commit of a mounted component: it succeeds, the component stays
    mounted, and [focus()] is called once if the focus dependencies
    changed and not at all otherwise. *)
Lemma commit_mounted p dom f last :
  isMounting (refs (comp f)) = false →
  deps_focus f = Some last →
  ∃ f',
    commit p dom f = Some f'
    ∧ isMounting (refs (comp f')) = false
    ∧ deps_focus f' = Some (focus_deps (st (comp f)))
    ∧ out (comp f') =
        out (comp f) ++
        (if decide (focus_deps (st (comp f)) = last) then []
         else [ FocusCall (focus_target dom) ]).
Proof.
  intros Hm Hd. unfold commit. fold (synced p dom f). rewrite Hd. simpl.
  case_bool_decide as Hc.
  - unfold focusEffect. rewrite synced_refs. simpl. rewrite Hm. simpl.
    eexists. split; [done|]. simpl. rewrite synced_refs, synced_out. simpl.
    split; [done|]. split; [done|].
    case_decide as He; [congruence|].
    by rewrite nextFocusTarget_attached.
  - simpl. eexists. split; [done|]. simpl. rewrite synced_refs, synced_out.
    simpl.
    split; [done|]. split; [done|].
    case_decide as He; [by rewrite app_nil_r|].
    destruct Hc. congruence.
Qed.

Lemma rerender_mounted frames : ∀ f editing creating,
  isMounting (refs (comp f)) = false →
  deps_focus f = Some (editing, creating) →
  ∃ f',
    rerender frames f = Some f'
    ∧ out (comp f') = out (comp f) ++ focus_calls editing creating frames.
Proof.
  induction frames as [|[[p dom] s] frames IH];
    intros f editing creating Hm Hd.
  - exists f. by rewrite app_nil_r.
  - destruct (commit_mounted p dom (with_state s f) _ Hm Hd)
      as (f1 & Hc & Hm1 & Hd1 & Ho1).
    destruct (IH f1 _ _ Hm1 Hd1) as (f' & Hr & Ho).
    exists f'. simpl. rewrite Hc. simpl. split; [done|].
    rewrite Ho, Ho1. simpl. rewrite <- app_assoc. do 2 f_equal.
    clear. unfold focus_deps. simpl.
    case_decide as H1; case_decide as H2; try done.
    + destruct H2. by injection H1.
    + destruct H1. destruct H2 as [<- <-]. done.
Qed.

(** The first commit: no [focus()] call, and the component is mounted. *)
Lemma commit_mount p dom u t creating :
  ∃ f1,
    commit p dom (mount p u t creating) = Some f1
    ∧ isMounting (refs (comp f1)) = false
    ∧ deps_focus f1 = Some (focus_deps (st (comp (mount p u t creating))))
    ∧ out (comp f1) = [].
Proof.
  unfold commit. simpl. unfold focusEffect. rewrite syncEffect_refs. simpl.
  eexists. split; [done|]. simpl. by rewrite syncEffect_out.
Qed.

(** A run: mounted in viewing mode; an edit click; a render that changes
    nothing; page creation begins, in a document without focusable
    elements; page creation ends and editing stops in one render. *)
Example focus_effect_run :
  ∃ f1,
    commit example_props example_dom
      (mount example_props (js "https://wordpress.org") (js "WordPress") false)
    = Some f1
    ∧ (out ∘ comp) <$>
        rerender [ (example_props, example_dom, example_state true);
                   (example_props, example_dom, example_state true);
                   (example_props, bare_dom, example_state_creating true);
                   (example_props, example_dom, example_state false) ] f1
      = Some [ FocusCall 3%N; FocusCall 1%N; FocusCall 3%N ].
Proof. eexists. split; [reflexivity|]. vm_compute. reflexivity. Qed.

(** C3: the focus effect calls no [focus()] in the first commit; in the
    commits after it, it calls [focus()] exactly once for each render
    whose [isEditingLink] or [isCreatingPage] differs from the previous
    render's, and not otherwise.  The element focused is the focusable
    descendant of the root container at index 1 when the text input ref is
    set and at index 0 otherwise, and the root container itself when there
    is no descendant at that index. *)
Theorem focus_effect_trace (p : Props) (dom : Dom) (u t : jsstring)
    (creating : bool) (frames : list (Props * Dom * State)) :
  ∃ f1 f',
    commit p dom (mount p u t creating) = Some f1
    ∧ out (comp f1) = []
    ∧ rerender frames f1 = Some f'
    ∧ out (comp f') = focus_calls (initialIsEditingLink p) creating frames.
Proof.
  destruct (commit_mount p dom u t creating) as (f1 & Hc & Hm & Hd & Ho).
  destruct (rerender_mounted frames f1 _ _ Hm Hd) as (f' & Hr & Ho').
  exists f1, f'. rewrite Ho in Ho'. done.
Qed.

Lemma force_flag_sync_commit (p : Props) (dom : Dom) (f : Fiber) (b : bool) :
  forceIsEditingLink p = Some b →
  deps_sync f ≠ Some (Some b) →
  isEditingLink (st (comp f)) ≠ b →
  deps_focus f = Some (focus_deps (st (comp f))) →
  ∃ f',
    commit p dom f = Some f'
    ∧ isEditingLink (st (comp f')) = b
    ∧ out (comp f') = out (comp f).
Proof.
  intros Hp Hlast Hne Hd. unfold commit. rewrite Hd.
  assert (Hs : deps_changed (deps_sync f) (forceIsEditingLink p) = true).
  { rewrite Hp. unfold deps_changed. destruct (deps_sync f) as [d|]; [|done].
    apply bool_decide_eq_true. congruence. }
  rewrite Hs. simpl. case_bool_decide as H; [by destruct H|]. simpl.
  eexists. split; [done|]. simpl. split.
  - by apply syncEffect_sets.
  - by rewrite syncEffect_out.
Qed.

(** C6: when the forced-editing flag is defined, differs from the flag of
    the last commit and differs from [isEditingLink], the sync effect sets
    [isEditingLink] to the flag and calls no [focus()]; the commit in
    which it runs calls none either, as long as [isEditingLink] and
    [isCreatingPage] are those of the last commit. *)
Theorem force_flag_sync (p : Props) (dom : Dom) (f : Fiber) (b : bool) :
  forceIsEditingLink p = Some b →
  deps_sync f ≠ Some (Some b) →
  isEditingLink (st (comp f)) ≠ b →
  deps_focus f = Some (focus_deps (st (comp f))) →
  syncEffect p (comp f) = setIsEditingLink b (comp f)
  ∧ out (syncEffect p (comp f)) = out (comp f)
  ∧ ∃ f',
      commit p dom f = Some f'
      ∧ isEditingLink (st (comp f')) = b
      ∧ out (comp f') = out (comp f).
Proof.
  intros Hp Hlast Hne Hd. split; [|split].
  - unfold syncEffect. rewrite Hp. case_bool_decide as H; [done|].
    destruct H. congruence.
  - apply syncEffect_out.
  - by apply force_flag_sync_commit.
Qed.

Lemma force_flag_sync_witness :
  syncEffect (with_force (Some true) example_props) (comp example_fiber)
  = setIsEditingLink true (comp example_fiber)
  ∧ out (syncEffect (with_force (Some true) example_props)
           (comp example_fiber)) = []
  ∧ ∃ f',
      commit (with_force (Some true) example_props) example_dom example_fiber
      = Some f'
      ∧ isEditingLink (st (comp f')) = true
      ∧ out (comp f') = [].
Proof.
  apply (force_flag_sync (with_force (Some true) example_props) example_dom
           example_fiber true).
  - reflexivity.
  - discriminate.
  - discriminate.
  - reflexivity.
Defined.

(** After such a sync the next commit renders the new [isEditingLink],
    and there the focus effect does call [focus()] (once the component is
    mounted). *)
Remark force_flag_sync_then_focus (p : Props) (dom : Dom) (f f' : Fiber)
    (b : bool) :
  forceIsEditingLink p = Some b →
  deps_sync f ≠ Some (Some b) →
  isEditingLink (st (comp f)) ≠ b →
  deps_focus f = Some (focus_deps (st (comp f))) →
  isMounting (refs (comp f)) = false →
  commit p dom f = Some f' →
  ∃ f'',
    commit p dom f' = Some f''
    ∧ out (comp f'') = out (comp f) ++ [ FocusCall (focus_target dom) ].
Proof.
  intros Hp Hlast Hne Hd Hm Hc.
  destruct (commit_mounted p dom f _ Hm Hd) as (g & Hg & Hm' & Hd' & Ho').
  rewrite Hc in Hg. injection Hg as <-.
  destruct (force_flag_sync_commit p dom f b Hp Hlast Hne Hd)
    as (g & Hg & Hb & Ho).
  rewrite Hc in Hg. injection Hg as <-.
  destruct (commit_mounted p dom f' _ Hm' Hd') as (f'' & Hc'' & _ & _ & Ho'').
  exists f''. split; [done|]. rewrite Ho'', Ho.
  case_decide as He; [|done].
  unfold focus_deps in He. injection He as He _. congruence.
Qed.

(** ** Further properties: the views *)

Lemma showTextControl_url (p : Props) :
  showTextControl p = true →
  ∃ v u, value p = Some v ∧ url v = Some u ∧ u ≠ [].
Proof.
  unfold showTextControl, opt_url. destruct (value p) as [v|]; [|done].
  simpl. destruct (url v) as [u|] eqn:Hu; [|done].
  rewrite andb_true_iff, Nat.ltb_lt. intros [Hl _].
  exists v, u. split; [done|]. split; [done|].
  intros ->. simpl in Hl. lia.
Qed.

(** Exactly one of the edit controls, the link preview and the loading
    indicator is shown, in every state. *)
Theorem exactly_one_view (p : Props) (s : State) :
  (shouldShowEditControls p s = true
   ∧ shouldShowLinkPreview p s = false ∧ isLoading s = false)
  ∨ (shouldShowEditControls p s = false
     ∧ shouldShowLinkPreview p s = true ∧ isLoading s = false)
  ∨ (shouldShowEditControls p s = false
     ∧ shouldShowLinkPreview p s = false ∧ isLoading s = true).
Proof.
  unfold shouldShowEditControls, shouldShowLinkPreview, isLoading.
  destruct (isCreatingPage s).
  - right. right. by rewrite !andb_false_r.
  - rewrite !andb_true_r. destruct (isEditingLink s); simpl.
    + left. by rewrite andb_false_r.
    + rewrite andb_true_r. destruct (bool_decide (is_Some (value p))); auto.
Qed.

(** The unlink control is shown exactly when a removal handler is passed
    and the link preview is shown: never while editing or loading. *)
Theorem shownUnlinkControl_with_preview (p : Props) (s : State) :
  shownUnlinkControl p s = true
  ↔ onRemove p = true ∧ shouldShowLinkPreview p s = true.
Proof.
  unfold shownUnlinkControl, shouldShowLinkPreview.
  rewrite !andb_true_iff. tauto.
Qed.

(** Without a committed value the edit controls are shown whenever no
    page is being created, whatever [isEditingLink] is (a forced
    [false] included); preview, unlink control and text control are
    not. *)
Theorem no_value_shows_edit_controls (p : Props) (s : State) :
  value p = None →
  shouldShowEditControls p s = negb (isCreatingPage s)
  ∧ shouldShowLinkPreview p s = false
  ∧ shownUnlinkControl p s = false
  ∧ showTextControl p = false.
Proof.
  intros Hv.
  unfold shouldShowEditControls, shouldShowLinkPreview, shownUnlinkControl,
    showTextControl. rewrite Hv. simpl.
  rewrite orb_true_r, andb_false_r. done.
Qed.

Lemma no_value_shows_edit_controls_witness :
  shouldShowEditControls (with_force (Some false) empty_props)
    (example_state false) = true
  ∧ shouldShowLinkPreview (with_force (Some false) empty_props)
      (example_state false) = false.
Proof.
  destruct (no_value_shows_edit_controls (with_force (Some false) empty_props)
              (example_state false) eq_refl) as (H1 & H2 & _).
  exact (conj H1 H2).
Defined.

(** [currentInputIsEmpty] holds exactly when the current URL input is
    empty or made of white space only. *)
Theorem currentInputIsEmpty_blank (p : Props) (s : State) :
  currentInputIsEmpty p s = true ↔ blank_string (currentUrlInputValue p s).
Proof.
  unfold currentInputIsEmpty. rewrite Nat.eqb_eq, <- trim_blank.
  by destruct (trim (currentUrlInputValue p s)).
Qed.

(** A component whose text control is shown has a committed [url] that is
    not empty, so without a forced flag it starts in viewing mode. *)
Theorem showTextControl_starts_viewing (p : Props) :
  showTextControl p = true →
  forceIsEditingLink p = None →
  mode_of (initialIsEditingLink p) = Viewing.
Proof.
  intros Hs Hf. apply showTextControl_url in Hs as (v & u & Hv & Hu & Hne).
  unfold initialIsEditingLink. rewrite Hf, Hv, Hu. by destruct u.
Qed.

Lemma showTextControl_starts_viewing_witness :
  mode_of (initialIsEditingLink example_props) = Viewing.
Proof.
  exact (showTextControl_starts_viewing example_props eq_refl eq_refl).
Defined.

(** ** Further properties: commits *)

Lemma focusEffect_st dom c c' : focusEffect dom c = Some c' → st c' = st c.
Proof.
  unfold focusEffect. destruct (isMounting (refs c)).
  - by intros [= <-].
  - destruct (wrapperNode (refs c)); [|done]. by intros [= <-].
Qed.

Lemma commit_st p dom f f' :
  commit p dom f = Some f' → st (comp f') = st (synced p dom f).
Proof.
  unfold commit. fold (synced p dom f).
  destruct (deps_changed (deps_focus f) _).
  - destruct (focusEffect dom (synced p dom f)) as [c2|] eqn:Hc; [|done].
    intros [= <-]. simpl. by apply focusEffect_st in Hc.
  - by intros [= <-].
Qed.

Lemma syncEffect_keeps p c :
  internalUrlInputValue (st (syncEffect p c)) = internalUrlInputValue (st c)
  ∧ internalTextInputValue (st (syncEffect p c)) = internalTextInputValue (st c)
  ∧ isCreatingPage (st (syncEffect p c)) = isCreatingPage (st c).
Proof.
  unfold syncEffect. destruct (forceIsEditingLink p); [|done].
  by case_bool_decide.
Qed.

Lemma deps_changed_same {A} `{EqDecision A} (x : A) :
  deps_changed (Some x) x = false.
Proof. unfold deps_changed. by apply bool_decide_eq_false; intros H'. Qed.

Lemma commit_keeps_state_flag p dom f f' :
  commit p dom f = Some f' →
  deps_sync f = Some (forceIsEditingLink p) →
  isEditingLink (st (comp f')) = isEditingLink (st (comp f)).
Proof.
  intros Hc Hs. rewrite (commit_st _ _ _ _ Hc). unfold synced.
  by rewrite Hs, deps_changed_same.
Qed.

(** A commit changes [isEditingLink] only through the sync effect: when
    the forced-editing flag is defined and is not the flag of the last
    commit, [isEditingLink] is the flag after the commit; in every other
    case it stays as rendered, so a flag that stays the same does not undo
    what a handler did. *)
Theorem commit_sets_isEditingLink (p : Props) (dom : Dom) (f f' : Fiber) :
  commit p dom f = Some f' →
  isEditingLink (st (comp f')) =
    match forceIsEditingLink p with
    | Some b =>
        if decide (deps_sync f = Some (Some b))
        then isEditingLink (st (comp f))
        else b
    | None => isEditingLink (st (comp f))
    end.
Proof.
  intros Hc. rewrite (commit_st _ _ _ _ Hc). unfold synced, syncEffect.
  destruct (forceIsEditingLink p) as [b|] eqn:Hp.
  - case_decide as Hs.
    + by rewrite Hs, deps_changed_same.
    + destruct (deps_changed (deps_sync f) (Some b)) eqn:Hd.
      * simpl. case_bool_decide as Hb; [done|].
        destruct (decide (b = isEditingLink (st (comp f)))); [done|].
        by destruct Hb.
      * unfold deps_changed in Hd. destruct (deps_sync f) as [d|]; [|done].
        apply bool_decide_eq_false in Hd. destruct Hs.
        destruct (decide (d = Some b)) as [->|Hne]; [done | by destruct Hd].
  - by destruct (deps_changed (deps_sync f) None).
Qed.

Lemma commit_sets_isEditingLink_witness :
  ∃ f',
    commit (with_force (Some false) example_props) example_dom
      example_fiber_editing = Some f'
    ∧ isEditingLink (st (comp f')) = true.
Proof.
  eexists. split; [reflexivity|].
  exact (commit_sets_isEditingLink (with_force (Some false) example_props)
           example_dom example_fiber_editing _ eq_refl).
Defined.

(** The first commit leaves the initial state as it is: on mount the sync
    effect finds [isEditingLink] equal to a defined flag and does
    nothing. *)
Theorem first_commit_keeps_initial_state (p : Props) (dom : Dom)
    (u t : jsstring) (creating : bool) :
  ∃ f1,
    commit p dom (mount p u t creating) = Some f1
    ∧ st (comp f1) = st (comp (mount p u t creating))
    ∧ isEditingLink (st (comp f1)) = initialIsEditingLink p.
Proof.
  destruct (commit_mount p dom u t creating) as (f1 & Hc & _).
  exists f1. split; [done|]. rewrite (commit_st _ _ _ _ Hc).
  assert (Hs : st (synced p dom (mount p u t creating))
               = st (comp (mount p u t creating))); [|by rewrite Hs].
  unfold synced, syncEffect. simpl.
  destruct (forceIsEditingLink p) as [b|] eqn:Hf; [|done].
  unfold initialIsEditingLink. rewrite Hf.
  case_bool_decide as H; [by destruct H | done].
Qed.

(** The focus effect throws exactly when it runs on a mounted component
    whose [wrapperNode] holds no node; it never throws on mount.  A commit
    attaches the wrapper before the effects run, so it never throws. *)
Theorem focusEffect_throws (p : Props) (dom : Dom) (c : Component) (f : Fiber) :
  (focusEffect dom c = None
   ↔ isMounting (refs c) = false ∧ wrapperNode (refs c) = None)
  ∧ is_Some (commit p dom f).
Proof.
  split.
  - unfold focusEffect. destruct (isMounting (refs c)).
    + split; [done | by intros [? _]].
    + destruct (wrapperNode (refs c)); simpl; split; try done.
      by intros [_ ?].
  - unfold commit. fold (synced p dom f).
    destruct (deps_changed (deps_focus f) _); [|by eexists].
    unfold focusEffect. rewrite synced_refs. simpl.
    destruct (isMounting (refs (comp f))); by eexists.
Qed.

(** ** Further properties: where focus goes *)

Lemma focus_target_within (dom : Dom) :
  focus_target dom = wrapper_div dom
  ∨ focus_target dom ∈ focusable_find dom (wrapper_div dom).
Proof.
  unfold focus_target.
  destruct (focusable_find dom (wrapper_div dom) !! _) as [n|] eqn:Hn.
  - right. by eapply list_elem_of_lookup_2.
  - by left.
Qed.

Lemma focus_calls_within (frames : list (Props * Dom * State)) :
  ∀ editing creating e,
  e ∈ focus_calls editing creating frames →
  ∃ p dom s,
    (p, dom, s) ∈ frames
    ∧ e = FocusCall (focus_target dom).
Proof.
  induction frames as [|[[p dom] s] frames IH];
    intros editing creating e; simpl.
  - by intros ?%elem_of_nil.
  - rewrite elem_of_app. intros [He|He].
    + case_decide; [by apply elem_of_nil in He|].
      apply list_elem_of_singleton in He as ->.
      exists p, dom, s. split; [left | done].
    + destruct (IH _ _ _ He) as (p' & dom' & s' & Hin & ->).
      exists p', dom', s'. split; [by right | done].
Qed.

(** In every run, the effects call nothing but [focus()], and each call
    is on the wrapper of some render or on one of that wrapper's focusable
    descendants: focus is never moved out of the component. *)
Theorem focus_stays_within (p : Props) (dom : Dom) (u t : jsstring)
    (creating : bool) (frames : list (Props * Dom * State)) (f1 f' : Fiber) :
  commit p dom (mount p u t creating) = Some f1 →
  rerender frames f1 = Some f' →
  ∀ e, e ∈ out (comp f') →
    ∃ p' dom' s' n,
      (p', dom', s') ∈ frames
      ∧ e = FocusCall n
      ∧ (n = wrapper_div dom' ∨ n ∈ focusable_find dom' (wrapper_div dom')).
Proof.
  intros Hc Hr e He.
  destruct (commit_mount p dom u t creating) as (g1 & Hg1 & Hm & Hd & Ho).
  rewrite Hc in Hg1. injection Hg1 as <-.
  destruct (rerender_mounted frames f1 _ _ Hm Hd) as (g' & Hg' & Ho').
  rewrite Hr in Hg'. injection Hg' as <-.
  rewrite Ho', Ho in He. simpl in He.
  destruct (focus_calls_within _ _ _ _ He) as (p' & dom' & s' & Hin & ->).
  exists p', dom', s', (focus_target dom'). split; [done|]. split; [done|].
  apply focus_target_within.
Qed.

Lemma focus_stays_within_witness :
  ∃ p' dom' s' n,
    (p', dom', s') ∈ [ (example_props, example_dom, example_state true) ]
    ∧ FocusCall 3%N = FocusCall n
    ∧ (n = wrapper_div dom' ∨ n ∈ focusable_find dom' (wrapper_div dom')).
Proof.
  refine (focus_stays_within example_props example_dom
            (js "https://wordpress.org") (js "WordPress") false
            [ (example_props, example_dom, example_state true) ]
            _ _ eq_refl eq_refl (FocusCall 3%N) _).
  vm_compute. left.
Defined.

(** ** Further properties: a handler, then a commit *)

(** The commit after a handler that keeps the component mounted: it calls
    [focus()] once if the handler changed [isEditingLink], after whatever
    the handler called, and then clears [isEndingEditWithFocus]. *)
Lemma handled_commit (h : Component → Component) p dom f :
  settled f →
  isMounting (refs (h (comp f))) = false →
  ∃ f',
    commit p dom (handled h f) = Some f'
    ∧ out (comp f') =
        out (h (comp f)) ++
        (if decide (focus_deps (st (h (comp f))) = focus_deps (st (comp f)))
         then [] else [ FocusCall (focus_target dom) ])
    ∧ (focus_deps (st (h (comp f))) ≠ focus_deps (st (comp f)) →
       isEndingEditWithFocus (refs (comp f')) = false).
Proof.
  intros [Hm Hd] Hm'.
  destruct (commit_mounted p dom (handled h f) _ Hm' Hd)
    as (f' & Hc & _ & _ & Ho).
  exists f'. split; [done|]. split; [done|]. intros Hne.
  revert Hc. unfold commit. fold (synced p dom (handled h f)).
  simpl. rewrite Hd. simpl.
  case_bool_decide as Hx; [|by destruct Hne].
  unfold focusEffect. rewrite synced_refs. simpl. rewrite Hm'. simpl.
  by intros [= <-].
Qed.

Lemma stopEditing_focus_deps dom c :
  focus_deps (st (stopEditing dom c)) = (false, isCreatingPage (st c)).
Proof. reflexivity. Qed.

Lemma stopEditing_isMounting dom c :
  isMounting (refs (stopEditing dom c)) = isMounting (refs c).
Proof. reflexivity. Qed.

Lemma focus_deps_stop (c : Component) :
  (false, isCreatingPage (st c)) = focus_deps (st c)
  ↔ isEditingLink (st c) = false.
Proof.
  unfold focus_deps. split.
  - by intros [= <-].
  - by intros ->.
Qed.

(** Submitting, or selecting a suggestion, on a settled component in
    editing mode: the next commit calls [focus()] exactly once, after the
    handler's [onChange] call, on the focus target, and leaves
    [isEndingEditWithFocus] cleared.  In viewing mode the next commit
    calls no [focus()]. *)
Theorem stop_editing_then_commit (p : Props) (dom : Dom) (f : Fiber)
    (h : Component → Component) :
  settled f →
  h = handleSubmit p dom ∨ (∃ v, h = handleSelectSuggestion dom v) →
  ∃ f',
    commit p dom (handled h f) = Some f'
    ∧ out (comp f') =
        out (h (comp f)) ++
        (if isEditingLink (st (comp f))
         then [ FocusCall (focus_target dom) ] else [])
    ∧ (isEditingLink (st (comp f)) = true →
       isEndingEditWithFocus (refs (comp f')) = false).
Proof.
  intros Hs Hh.
  assert (Hdeps : focus_deps (st (h (comp f)))
                  = (false, isCreatingPage (st (comp f)))
                  ∧ isMounting (refs (h (comp f)))
                    = isMounting (refs (comp f))).
  { destruct Hh as [->|[v ->]]; [|done].
    unfold handleSubmit. by destruct (_ || _). }
  destruct Hdeps as [Hdeps Hm]. rewrite (proj1 Hs) in Hm.
  destruct (handled_commit h p dom f Hs Hm) as (f' & Hc & Ho & He).
  exists f'. split; [done|]. rewrite Hdeps in Ho, He. split.
  - rewrite Ho. case_decide as Hx.
    + apply focus_deps_stop in Hx. by rewrite Hx.
    + destruct (isEditingLink (st (comp f))) eqn:Hed; [done|].
      destruct Hx. by apply focus_deps_stop.
  - intros Hed. apply He. intros Hx. apply focus_deps_stop in Hx. congruence.
Qed.

Lemma stop_editing_then_commit_witness :
  ∃ f',
    commit example_props example_dom
      (handled (handleSelectSuggestion example_dom (Some example_suggestion))
         example_fiber_editing) = Some f'
    ∧ out (comp f')
      = [ OnChange {| url := url example_suggestion;
                      title := Some (js "WordPress");
                      others := others example_suggestion |};
          FocusCall 3%N ].
Proof.
  destruct (stop_editing_then_commit example_props example_dom
              example_fiber_editing
              (handleSelectSuggestion example_dom (Some example_suggestion))
              (conj eq_refl eq_refl)
              (or_intror (ex_intro _ (Some example_suggestion) eq_refl)))
    as (f' & Hc & Ho & _).
  exists f'. split; [exact Hc | exact Ho].
Defined.

(** An edit click on a settled component whose forced-editing flag is the
    one of the last commit: the next commit leaves the component in
    editing mode (also under a forced [false]) and calls [focus()] once if
    it was in viewing mode; a click in editing mode changes nothing and
    moves no focus. *)
Theorem edit_click_then_commit (p : Props) (dom : Dom) (f : Fiber) :
  settled f →
  deps_sync f = Some (forceIsEditingLink p) →
  ∃ f',
    commit p dom (handled onEditClick f) = Some f'
    ∧ mode_of (isEditingLink (st (comp f'))) = Editing
    ∧ out (comp f') =
        out (comp f) ++
        (if isEditingLink (st (comp f))
         then [] else [ FocusCall (focus_target dom) ]).
Proof.
  intros Hs Hsync.
  destruct (handled_commit onEditClick p dom f Hs (proj1 Hs))
    as (f' & Hc & Ho & _).
  exists f'. split; [done|]. split.
  - by rewrite (commit_keeps_state_flag p dom (handled onEditClick f) f'
                  Hc Hsync).
  - rewrite Ho. clear Ho. simpl. unfold focus_deps. simpl.
    destruct (isEditingLink (st (comp f))); case_decide as H.
    + done.
    + by destruct H.
    + by inversion H.
    + done.
Qed.

Lemma edit_click_then_commit_witness :
  ∃ f',
    commit (with_force (Some false) example_props) example_dom
      (handled onEditClick
         {| comp := example_component false;
            deps_sync := Some (Some false);
            deps_focus := Some (false, false) |}) = Some f'
    ∧ mode_of (isEditingLink (st (comp f'))) = Editing
    ∧ out (comp f') = [ FocusCall 3%N ].
Proof.
  exact (edit_click_then_commit (with_force (Some false) example_props)
           example_dom
           {| comp := example_component false;
              deps_sync := Some (Some false);
              deps_focus := Some (false, false) |}
           (conj eq_refl eq_refl) eq_refl).
Defined.

(** ** Further properties: submitting again *)

(** Once the parent has stored the value a submit passed to [onChange] as
    the new [value] prop, submitting the same drafts again calls
    nothing. *)
Theorem resubmit_calls_nothing (p : Props) (dom : Dom) (c c' : Component) :
  st c' = st c →
  out (handleSubmit (with_value (Some (submitted p (st c))) p) dom c')
  = out c'.
Proof.
  intros Hst. rewrite handleSubmit_out, Hst.
  case_decide as H; [by rewrite app_nil_r|].
  destruct H. done.
Qed.

Lemma resubmit_calls_nothing_witness :
  out (handleSubmit
         (with_value (Some (submitted empty_props (example_state true)))
            empty_props)
         example_dom (example_component true)) = [].
Proof.
  exact (resubmit_calls_nothing empty_props example_dom
           (example_component true) (example_component true) eq_refl).
Defined.

Lemma force_flag_sync_then_focus_witness :
  ∃ f'',
    commit (with_force (Some true) example_props) example_dom
      example_fiber_synced = Some f''
    ∧ out (comp f'') = [ FocusCall 3%N ].
Proof.
  refine (force_flag_sync_then_focus (with_force (Some true) example_props)
            example_dom example_fiber example_fiber_synced true
            eq_refl _ _ eq_refl eq_refl eq_refl); discriminate.
Defined.

End LinkControlProofs.

(* ===================================================================== *)
(** * Part IV: properties of the query-total renderer                     *)
(* ===================================================================== *)

Module QueryTotalProofs.
Import QueryTotal.

Lemma php_int_fits (z : Z) : is_php_int z = true → php_int z = Some z.
Proof. unfold php_int. by intros ->. Qed.

Lemma string_app_assoc (a b c : string) : (a +:+ b) +:+ c = a +:+ (b +:+ c).
Proof.
  induction a as [|x a IH]; [done|].
  change (String x ((a +:+ b) +:+ c) = String x (a +:+ (b +:+ c))).
  by rewrite IH.
Qed.

Lemma string_app_nil_r (a : string) : a +:+ "" = a.
Proof.
  induction a as [|x a IH]; [done|].
  change (String x (a +:+ "") = String x a). by rewrite IH.
Qed.

(** ** [sprintf] on the five formats of the renderer *)

Lemma sprintf_one (first total : string) :
  sprintf (__ "Displaying %1$s of %2$s") [ PStr first; PStr total ]
  = Some ("Displaying " +:+ first +:+ " of " +:+ total).
Proof.
  change (Some ("Displaying " +:+ first +:+ " of " +:+ total +:+ "")
          = Some ("Displaying " +:+ first +:+ " of " +:+ total)).
  by rewrite string_app_nil_r.
Qed.

Lemma sprintf_span (first last total : string) :
  sprintf (__ "Displaying %1$s – %2$s of %3$s")
    [ PStr first; PStr last; PStr total ]
  = Some ("Displaying " +:+ first +:+ " – " +:+ last +:+ " of " +:+ total).
Proof.
  change (Some ("Displaying " +:+ first +:+ " – " +:+ last +:+ " of "
                +:+ total +:+ "")
          = Some ("Displaying " +:+ first +:+ " – " +:+ last +:+ " of "
                  +:+ total)).
  by rewrite string_app_nil_r.
Qed.

Lemma sprintf_paragraph (sentence : string) :
  sprintf "<p>%s</p>" [ PStr sentence ] = Some ("<p>" +:+ sentence +:+ "</p>").
Proof. reflexivity. Qed.

Lemma sprintf_total (total : Z) (words : string) :
  sprintf "<p><strong>%d</strong> %s</p>" [ PInt total; PStr words ]
  = Some ("<p>" +:+ (strong total +:+ " " +:+ words) +:+ "</p>").
Proof.
  unfold strong. rewrite !string_app_assoc. reflexivity.
Qed.

Lemma sprintf_wrapper (w sentence : string) :
  sprintf "<div %1$s>%2$s</div>" [ PStr w; PStr ("<p>" +:+ sentence +:+ "</p>") ]
  = Some (block_markup w sentence).
Proof.
  unfold block_markup.
  change (Some ("<div " +:+ w +:+ ">" +:+ ("<p>" +:+ sentence +:+ "</p>")
                +:+ "</div>")
          = Some ("<div " +:+ w +:+ "><p>" +:+ sentence +:+ "</p></div>")).
  rewrite !string_app_assoc. reflexivity.
Qed.

(** ** The two display types *)

(** The range computation of the source gives [range_start] and
    [range_end] when no intermediate value leaves the integers. *)
Lemma render_range_display (w : string) (cp ppp total : Z) :
  range_fits cp ppp →
  render_block_core_query_total w "range-display" cp ppp total =
    Some (block_markup w
            (range_text (range_start cp ppp) (range_end cp ppp total) total)).
Proof.
  intros (H1 & H2 & H3 & H4 & H5).
  unfold render_block_core_query_total, php_sub, php_mul, php_add.
  rewrite (php_int_fits _ H1). cbn [mbind option_bind].
  rewrite (php_int_fits _ H2). cbn [mbind option_bind].
  fold (range_start cp ppp).
  rewrite (php_int_fits _ H3). cbn [mbind option_bind].
  rewrite (php_int_fits _ H4). cbn [mbind option_bind].
  rewrite (php_int_fits _ H5). cbn [mbind option_bind].
  fold (range_end cp ppp total).
  change (String.eqb "range-display" "range-display") with true. cbv iota.
  fold (strong (range_start cp ppp)) (strong (range_end cp ppp total))
    (strong total).
  unfold range_text.
  destruct (range_start cp ppp =? range_end cp ppp total).
  - rewrite sprintf_one. cbn [mbind option_bind].
    rewrite sprintf_paragraph. cbn [mbind option_bind].
    apply sprintf_wrapper.
  - rewrite sprintf_span. cbn [mbind option_bind].
    rewrite sprintf_paragraph. cbn [mbind option_bind].
    apply sprintf_wrapper.
Qed.

Lemma render_total_results (w dt : string) (cp ppp total : Z) :
  dt ≠ "range-display" →
  render_block_core_query_total w dt cp ppp total =
    Some (block_markup w (total_text total)).
Proof.
  intros Hdt. unfold render_block_core_query_total.
  apply String.eqb_neq in Hdt. rewrite Hdt. cbv zeta iota.
  rewrite sprintf_total. cbn [mbind option_bind].
  apply sprintf_wrapper.
Qed.

(** ** Range display *)

Example range_display_first_page :
  render_block_core_query_total example_wrapper "range-display" 1 10 25
  = Some ("<div class=" +:+ dquote +:+ "wp-block-query-total" +:+ dquote
          +:+ "><p>Displaying <strong>1</strong> – <strong>10</strong>"
          +:+ " of <strong>25</strong></p></div>").
Proof. vm_compute. reflexivity. Qed.

Example range_display_show_all :
  render_block_core_query_total "" "range-display" 1 (-1) 25
  = Some ("<div ><p>Displaying <strong>1</strong> – <strong>-1</strong>"
          +:+ " of <strong>25</strong></p></div>").
Proof. vm_compute. reflexivity. Qed.

Example range_display_float :
  render_block_core_query_total "" "range-display" PHP_INT_MAX 10 25 = None.
Proof. vm_compute. reflexivity. Qed.

(** C7, as stated, fails: whatever the wrapper attributes, the output for
    page 1, 10 posts per page and 25 posts is not the bare sentence. *)
Lemma range_display_not_bare_sentence :
  ¬ ∃ w, render_block_core_query_total w "range-display" 1 10 25
         = Some "Displaying 1 – 10 of 25".
Proof.
  intros [w H]. rewrite render_range_display in H by (by vm_compute).
  vm_compute in H. discriminate H.
Qed.

(** C7 (amended): with [displayType = "range-display"], and as long as the
    computation stays within PHP's integers, the renderer computes
    [start = (current_page - 1) * posts_per_page + 1] and
    [end = min(start + posts_per_page - 1, found_posts)] and returns the
    sentence [Displaying {start} of {total}] when [start] equals [end] and
    [Displaying {start} – {end} of {total}] otherwise, each number wrapped
    in a [strong] element, the sentence in a [p] element inside the
    block's wrapper [div].  For page 1, 10 posts per page and 25 posts the
    sentence is [Displaying 1 – 10 of 25] with that markup. *)
Theorem range_display_markup (w : string) (cp ppp total : Z) :
  range_fits cp ppp →
  render_block_core_query_total w "range-display" cp ppp total
  = Some (block_markup w
            (range_text (range_start cp ppp) (range_end cp ppp total) total))
  ∧ render_block_core_query_total w "range-display" 1 10 25
    = Some ("<div " +:+ w +:+ "><p>Displaying <strong>1</strong> – "
            +:+ "<strong>10</strong> of <strong>25</strong></p></div>").
Proof.
  intros Hfits. split.
  - by apply render_range_display.
  - rewrite render_range_display by (by vm_compute).
    vm_compute. reflexivity.
Qed.

Lemma range_display_markup_witness :
  render_block_core_query_total example_wrapper "range-display" 3 10 25
  = Some (block_markup example_wrapper (range_text 21 25 25))
  ∧ render_block_core_query_total example_wrapper "range-display" 1 1 1
    = Some (block_markup example_wrapper (range_text 1 1 1)).
Proof.
  split.
  - apply (range_display_markup example_wrapper 3 10 25). by vm_compute.
  - apply (range_display_markup example_wrapper 1 1 1). by vm_compute.
Defined.

(** ** Total display *)

(** C8, as stated, fails: whatever the wrapper attributes, the output for
    one post is not the bare sentence. *)
Lemma total_results_not_bare_sentence :
  ¬ ∃ w, render_block_core_query_total w "total-results" 1 10 1
         = Some "1 result found".
Proof.
  intros [w H]. rewrite render_total_results in H by discriminate.
  vm_compute in H. discriminate H.
Qed.

(** C8 (amended): with [displayType = "total-results"], or any value
    other than ["range-display"], the renderer returns, for every
    [found_posts], the sentence [{total} result found] when the total is 1
    and [{total} results found] otherwise, the number wrapped in a
    [strong] element, the sentence in a [p] element inside the block's
    wrapper [div]: [1 result found] for 1 and [0 results found] for 0,
    with that markup. *)
Theorem total_results_markup (w dt : string) (cp ppp total : Z) :
  dt ≠ "range-display" →
  render_block_core_query_total w dt cp ppp total
  = Some (block_markup w
            (strong total +:+ " "
             +:+ (if decide (total = 1) then "result found"
                  else "results found")))
  ∧ render_block_core_query_total w dt cp ppp 1
    = Some ("<div " +:+ w +:+ "><p><strong>1</strong> result found</p></div>")
  ∧ render_block_core_query_total w dt cp ppp 0
    = Some ("<div " +:+ w +:+ "><p><strong>0</strong> results found</p></div>").
Proof.
  intros Hdt. rewrite !render_total_results by done. split; [|split].
  - unfold total_text. destruct (Z.eqb_spec total 1) as [->|Hne].
    + done.
    + by case_decide.
  - vm_compute. reflexivity.
  - vm_compute. reflexivity.
Qed.

Lemma total_results_markup_witness :
  render_block_core_query_total example_wrapper "total-results" 2 10 25
  = Some (block_markup example_wrapper
            ("<strong>25</strong> results found")).
Proof.
  refine (eq_trans (proj1 (total_results_markup example_wrapper
                             "total-results" 2 10 25 _)) _).
  - discriminate.
  - reflexivity.
Defined.

(** ** Further properties: the range *)

Lemma range_end_inverted (cp ppp total : Z) :
  range_end cp ppp total < range_start cp ppp
  ↔ ppp <= 0 ∨ total < range_start cp ppp.
Proof. unfold range_end. lia. Qed.

Lemma range_text_span (first last total : Z) :
  first ≠ last →
  range_text first last total
  = "Displaying " +:+ strong first +:+ " – " +:+ strong last
      +:+ " of " +:+ strong total.
Proof.
  intros Hne. unfold range_text.
  by destruct (Z.eqb_spec first last).
Qed.

(** The range is inverted, its end below its start, exactly when
    [posts_per_page] is not positive or the page begins after the last
    post.  The renderer then still prints the sentence with two numbers:
    [Displaying 1 – 0 of 0] for an empty result, [Displaying 31 – 25 of
    25] for page 4 of 25 posts by 10. *)
Theorem range_display_inverted (w : string) (cp ppp total : Z) :
  range_fits cp ppp →
  ppp <= 0 ∨ total < range_start cp ppp →
  range_end cp ppp total < range_start cp ppp
  ∧ render_block_core_query_total w "range-display" cp ppp total
    = Some (block_markup w
              ("Displaying " +:+ strong (range_start cp ppp) +:+ " – "
               +:+ strong (range_end cp ppp total) +:+ " of "
               +:+ strong total)).
Proof.
  intros Hfits Hinv. apply range_end_inverted in Hinv. split; [done|].
  rewrite render_range_display by done.
  rewrite range_text_span; [done | lia].
Qed.

Lemma range_display_inverted_witness :
  render_block_core_query_total "" "range-display" 1 10 0
  = Some "<div ><p>Displaying <strong>1</strong> – <strong>0</strong> of <strong>0</strong></p></div>"
  ∧ render_block_core_query_total "" "range-display" 4 10 25
    = Some "<div ><p>Displaying <strong>31</strong> – <strong>25</strong> of <strong>25</strong></p></div>".
Proof.
  split.
  - refine (eq_trans (proj2 (range_display_inverted "" 1 10 0 _ _)) _).
    + by vm_compute.
    + right. by vm_compute.
    + vm_compute. reflexivity.
  - refine (eq_trans (proj2 (range_display_inverted "" 4 10 25 _ _)) _).
    + by vm_compute.
    + right. by vm_compute.
    + vm_compute. reflexivity.
Defined.

(** On a page that exists (page number and page size at least 1, first
    post of the page within the total) the printed range is sound: it
    starts at 1 or above, does not end before it starts, does not pass the
    total, and spans [posts_per_page] posts unless it ends at the
    total. *)
Theorem range_display_sound (w : string) (cp ppp total : Z) :
  range_fits cp ppp →
  1 <= cp → 1 <= ppp → range_start cp ppp <= total →
  ∃ first last,
    render_block_core_query_total w "range-display" cp ppp total
    = Some (block_markup w (range_text first last total))
    ∧ 1 <= first <= last ∧ last <= total
    ∧ (last - first + 1 = ppp ∨ (last = total ∧ last - first + 1 < ppp)).
Proof.
  intros Hfits Hcp Hppp Hs.
  exists (range_start cp ppp), (range_end cp ppp total).
  split; [by apply render_range_display|].
  assert (H0 : 0 <= (cp - 1) * ppp) by (apply Z.mul_nonneg_nonneg; lia).
  assert (H1 : 1 <= range_start cp ppp) by (unfold range_start; lia).
  unfold range_end. lia.
Qed.

Lemma range_display_sound_witness :
  ∃ first last,
    render_block_core_query_total example_wrapper "range-display" 3 10 25
    = Some (block_markup example_wrapper (range_text first last 25))
    ∧ 1 <= first <= last ∧ last <= 25
    ∧ (last - first + 1 = 10 ∨ (last = 25 ∧ last - first + 1 < 10)).
Proof.
  apply (range_display_sound example_wrapper 3 10 25); by vm_compute.
Defined.

(** The sentence with a single number is printed exactly when the page
    holds exactly one post: the page size is 1 and the page exists, or the
    page begins at the last post. *)
Theorem range_display_single (w : string) (cp ppp total : Z) :
  range_fits cp ppp →
  render_block_core_query_total w "range-display" cp ppp total
  = Some (block_markup w
            (if decide (1 <= ppp ∧ range_start cp ppp <= total
                        ∧ (ppp = 1 ∨ range_start cp ppp = total))
             then "Displaying " +:+ strong (range_start cp ppp) +:+ " of "
                  +:+ strong total
             else "Displaying " +:+ strong (range_start cp ppp) +:+ " – "
                  +:+ strong (range_end cp ppp total) +:+ " of "
                  +:+ strong total)).
Proof.
  intros Hfits. rewrite render_range_display by done.
  unfold range_text.
  destruct (Z.eqb_spec (range_start cp ppp) (range_end cp ppp total))
    as [He|Hne]; case_decide as H; try done.
  - destruct H. unfold range_end in He. lia.
  - destruct Hne. unfold range_end. lia.
Qed.

Lemma range_display_single_witness :
  render_block_core_query_total "" "range-display" 3 10 21
  = Some "<div ><p>Displaying <strong>21</strong> of <strong>21</strong></p></div>".
Proof.
  refine (eq_trans (range_display_single "" 3 10 21 _) _).
  - by vm_compute.
  - vm_compute. reflexivity.
Defined.

(** Consecutive pages tile the posts: when page [cp] is full, the next
    page begins right after its end. *)
Theorem range_display_next_page (w : string) (cp ppp total : Z) :
  range_fits cp ppp → range_fits (cp + 1) ppp →
  range_start cp ppp + ppp - 1 <= total →
  ∃ last last',
    render_block_core_query_total w "range-display" cp ppp total
    = Some (block_markup w (range_text (range_start cp ppp) last total))
    ∧ render_block_core_query_total w "range-display" (cp + 1) ppp total
      = Some (block_markup w (range_text (last + 1) last' total)).
Proof.
  intros Hfits Hfits' Hfull.
  exists (range_end cp ppp total), (range_end (cp + 1) ppp total).
  rewrite !render_range_display by done. split; [done|].
  do 3 f_equal. unfold range_end, range_start in *.
  replace ((cp + 1 - 1) * ppp) with ((cp - 1) * ppp + ppp) by ring. lia.
Qed.

Lemma range_display_next_page_witness :
  ∃ last last',
    render_block_core_query_total "" "range-display" 1 10 25
    = Some (block_markup "" (range_text 1 last 25))
    ∧ render_block_core_query_total "" "range-display" 2 10 25
      = Some (block_markup "" (range_text (last + 1) last' 25)).
Proof.
  apply (range_display_next_page "" 1 10 25); by vm_compute.
Defined.

(** ** Further properties: the page number *)


Lemma digit_of_digit (c : ascii) (d : nat) :
  digit_of c = Some d → is_php_space c = false
                        ∧ Ascii.eqb c "-" = false ∧ Ascii.eqb c "+" = false.
Proof.
  destruct c as [[] [] [] [] [] [] [] []]; vm_compute; by intros [=].
Qed.

(** Reading the digits of a decimal number gives its value. *)
Lemma read_digits_acc (d : Decimal.uint) : ∀ acc : positive,
  read_digits (NilEmpty.string_of_uint d) (Some (Z.pos acc))
  = (Some (Z.pos (Pos.of_uint_acc d acc)), EmptyString).
Proof.
  induction d; intros acc; simpl; [done|..];
    (etransitivity; [|apply IHd]); do 2 f_equal; lia.
Qed.

Lemma read_digits_uint (d : Decimal.uint) :
  d ≠ Decimal.Nil →
  read_digits (NilEmpty.string_of_uint d) None
  = (Some (Z.of_uint d), EmptyString).
Proof.
  assert (H0 : ∀ d, read_digits (NilEmpty.string_of_uint d) (Some 0)
                    = (Some (Z.of_uint d), EmptyString)).
  { clear d. induction d; simpl; [done | apply IHd | ..];
      apply (read_digits_acc d). }
  destruct d; intros Hd; simpl; [done | apply (H0 d) | ..];
    apply (read_digits_acc d).
Qed.

Lemma string_of_uint_head (d : Decimal.uint) :
  d ≠ Decimal.Nil →
  ∃ c r n, NilEmpty.string_of_uint d = String c r ∧ digit_of c = Some n.
Proof. destruct d; intros Hd; [done|..]; simpl; by eexists _, _, _. Qed.

Lemma int_cast_digits (negative : bool) (d : Decimal.uint) :
  d ≠ Decimal.Nil →
  is_php_int (Z.of_uint d) = true →
  int_cast ((if negative then "-" else "") +:+ NilEmpty.string_of_uint d)
  = Some (if negative then - Z.of_uint d else Z.of_uint d).
Proof.
  intros Hd Hfits.
  destruct (string_of_uint_head d Hd) as (c & r & n & Hs & Hc).
  destruct (digit_of_digit c n Hc) as (Hsp & Hm & Hp).
  pose proof (read_digits_uint d Hd) as Hr. rewrite Hs in Hr.
  unfold int_cast. destruct negative.
  - change ("-" +:+ NilEmpty.string_of_uint d)
      with (String "-" (NilEmpty.string_of_uint d)).
    rewrite Hs. cbn [skip_spaces]. change (is_php_space "-") with false.
    cbv iota. change (Ascii.eqb "-" "-") with true. cbv iota.
    rewrite Hr. cbn [float_like]. cbv iota.
    by rewrite (php_int_fits _ Hfits).
  - change ("" +:+ NilEmpty.string_of_uint d)
      with (NilEmpty.string_of_uint d).
    rewrite Hs. cbn [skip_spaces]. rewrite Hsp, Hm, Hp.
    rewrite Hr. cbn [float_like]. cbv iota.
    by rewrite (php_int_fits _ Hfits).
Qed.

(** The cast reads back the decimal form of an integer. *)
Lemma int_cast_strval (z : Z) :
  - PHP_INT_MAX <= z <= PHP_INT_MAX →
  int_cast (strval_int z) = Some z.
Proof.
  intros Hz. unfold strval_int.
  assert (Hfits : ∀ p, Z.pos p <= PHP_INT_MAX →
            is_php_int (Z.of_uint (Pos.to_uint p)) = true).
  { intros p Hp. pose proof (DecimalZ.of_to (Z.pos p)) as H. simpl in H.
    rewrite H. unfold is_php_int, PHP_INT_MIN, PHP_INT_MAX in *. lia. }
  destruct z as [|p|p]; [done|..].
  - pose proof (DecimalPos.Unsigned.to_uint_nonnil p) as Hn.
    pose proof (DecimalZ.of_to (Z.pos p)) as H. simpl in H.
    rewrite <- H at 2.
    replace (NilZero.string_of_int (Z.to_int (Z.pos p)))
      with ("" +:+ NilEmpty.string_of_uint (Pos.to_uint p)).
    + apply (int_cast_digits false); [done | apply Hfits; lia].
    + simpl. by destruct (Pos.to_uint p).
  - pose proof (DecimalPos.Unsigned.to_uint_nonnil p) as Hn.
    pose proof (DecimalZ.of_to (Z.neg p)) as H. simpl in H.
    rewrite <- H at 2.
    replace (NilZero.string_of_int (Z.to_int (Z.neg p)))
      with ("-" +:+ NilEmpty.string_of_uint (Pos.to_uint p)).
    + apply (int_cast_digits true); [done | apply Hfits; lia].
    + simpl. by destruct (Pos.to_uint p).
Qed.

Lemma strval_int_inj (a b : Z) : strval_int a = strval_int b → a = b.
Proof.
  unfold strval_int. intros H. apply DecimalZ.to_int_inj.
  assert (Hn : ∀ z, Z.to_int z ≠ Decimal.Pos Decimal.Nil
                    ∧ Z.to_int z ≠ Decimal.Neg Decimal.Nil).
  { intros [|p|p]; simpl; split; try done; intros [= Hp];
      by apply (DecimalPos.Unsigned.to_uint_nonnil p). }
  apply (f_equal NilZero.int_of_string) in H.
  rewrite !NilZero.isi in H by apply Hn. by injection H.
Qed.

Lemma list_ascii_app (a b : string) :
  list_ascii_of_string (a +:+ b)
  = list_ascii_of_string a ++ list_ascii_of_string b.
Proof.
  induction a as [|x a IH]; [done|].
  change (x :: list_ascii_of_string (a +:+ b)
          = x :: (list_ascii_of_string a ++ list_ascii_of_string b)).
  by rewrite IH.
Qed.

Lemma list_ascii_inj (a b : string) :
  list_ascii_of_string a = list_ascii_of_string b → a = b.
Proof.
  intros H. apply (f_equal string_of_list_ascii) in H.
  by rewrite !string_of_list_ascii_of_string in H.
Qed.

Lemma page_key_of_inj (a b : option Z) : page_key_of a = page_key_of b → a = b.
Proof.
  unfold page_key_of. intros H. apply (f_equal list_ascii_of_string) in H.
  destruct a as [a|], b as [b|]; rewrite ?list_ascii_app in H; [| | |done].
  - apply app_inv_head, app_inv_tail, list_ascii_inj, strval_int_inj in H.
    by rewrite H.
  - apply (f_equal (@length ascii)) in H.
    rewrite !length_app in H. simpl in H. lia.
  - apply (f_equal (@length ascii)) in H.
    rewrite !length_app in H. simpl in H. lia.
Qed.

(** Two query blocks with different ids (or one with an id and one
    without) read different URL parameters, so a parameter written for
    another block changes neither this block's page nor its output. *)
Theorem other_block_parameter_ignored (env : block_env) (other : option Z)
    (v w dt : string) :
  other ≠ context_queryId env →
  page_key_of other ≠ page_key env
  ∧ current_page (with_GET (<[page_key_of other := v]> (GET env)) env)
    = current_page env
  ∧ render_query_total_block
      (with_GET (<[page_key_of other := v]> (GET env)) env) w dt
    = render_query_total_block env w dt.
Proof.
  intros Hne.
  assert (Hk : page_key_of other ≠ page_key env).
  { intros H. by apply page_key_of_inj in H. }
  assert (Hc : current_page
                 (with_GET (<[page_key_of other := v]> (GET env)) env)
               = current_page env).
  { unfold current_page, inherits, page_key. simpl.
    by rewrite lookup_insert_ne. }
  split; [done|]. split; [done|].
  unfold render_query_total_block. by rewrite Hc.
Qed.

Lemma other_block_parameter_ignored_witness :
  current_page (with_GET (<[ "query-4-page" := "9"%string ]> ∅) example_env)
  = Some 1.
Proof.
  refine (eq_trans (proj1 (proj2 (other_block_parameter_ignored example_env
                                    (Some 4) "9" "" "" _))) _).
  - discriminate.
  - reflexivity.
Defined.

(** A block that inherits the main query takes as its page the main
    query's [paged] variable (1 when it is not set), raised to 1 when it
    is below, and prints the main query's numbers; no URL parameter
    changes that. *)
Theorem inherit_page_from_main_query (env : block_env)
    (g : gmap string string) (w dt : string) :
  context_inherit env = Some true →
  let page :=
    match query_var_paged env with
    | Some paged => if paged <? 1 then 1 else paged
    | None => 1
    end in
  current_page (with_GET g env) = Some page
  ∧ render_query_total_block (with_GET g env) w dt
    = render_block_core_query_total w dt page
        (posts_per_page (wp_query env)) (found_posts (wp_query env)).
Proof.
  intros Hi page.
  assert (Hc : current_page (with_GET g env) = Some page).
  { unfold current_page, inherits. simpl. rewrite Hi. subst page. f_equal.
    destruct (query_var_paged env) as [paged|]; simpl; [|done].
    destruct (Z.ltb_spec paged 1); lia. }
  split; [done|].
  unfold render_query_total_block. rewrite Hc. simpl.
  unfold query_to_use, inherits. simpl. by rewrite Hi.
Qed.

Lemma inherit_page_from_main_query_witness :
  current_page example_env_inherit = Some 1
  ∧ current_page
      {| context_inherit := Some true;
         context_queryId := None;
         query_var_paged := Some 3;
         GET := {[ "query-page" := "7"%string ]};
         wp_query := {| found_posts := 120; posts_per_page := 12 |};
         new_WP_Query := λ _, {| found_posts := 25; posts_per_page := 10 |} |}
    = Some 3.
Proof.
  split.
  - exact (proj1 (inherit_page_from_main_query example_env_inherit
                    (GET example_env_inherit) "" "" eq_refl)).
  - exact (proj1 (inherit_page_from_main_query
                    {| context_inherit := Some true;
                       context_queryId := None;
                       query_var_paged := Some 3;
                       GET := ∅;
                       wp_query := {| found_posts := 120;
                                      posts_per_page := 12 |};
                       new_WP_Query := λ _, {| found_posts := 25;
                                                posts_per_page := 10 |} |}
                    {[ "query-page" := "7"%string ]} "" "" eq_refl)).
Defined.

(** A block with its own query reads its page from the URL: page 1
    without the parameter, and the integer the parameter spells
    otherwise, zero and negative integers included (the page is not
    bounded below as it is for an inherited query). *)
Theorem url_page_read_back (env : block_env) :
  inherits env = false →
  (GET env !! page_key env = None → current_page env = Some 1)
  ∧ (∀ z, - PHP_INT_MAX <= z <= PHP_INT_MAX →
       GET env !! page_key env = Some (strval_int z) →
       current_page env = Some z).
Proof.
  intros Hi. unfold current_page. rewrite Hi. split.
  - by intros ->.
  - intros z Hz ->. by apply int_cast_strval.
Qed.

Lemma url_page_read_back_witness :
  current_page (with_GET {[ "query-3-page" := "-3"%string ]} example_env)
  = Some (-3)
  ∧ current_page example_env = Some 1.
Proof.
  split.
  - apply (proj2 (url_page_read_back
                    (with_GET {[ "query-3-page" := "-3"%string ]} example_env)
                    eq_refl) (-3)).
    + by vm_compute.
    + reflexivity.
  - exact (proj1 (url_page_read_back example_env eq_refl) eq_refl).
Defined.

(** A parameter that does not begin with a number (empty, or beginning
    with anything but white space, a sign, a digit or a dot) is page 0,
    not page 1: the range display then starts at [1 - posts_per_page]. *)
Theorem url_page_not_a_number (env : block_env) (v w : string) :
  inherits env = false →
  GET env !! page_key env = Some v →
  (v = EmptyString
   ∨ ∃ c r, v = String c r ∧ is_php_space c = false ∧ digit_of c = None
            ∧ c ≠ "-"%char ∧ c ≠ "+"%char ∧ c ≠ "."%char) →
  let q := new_WP_Query env 0 in
  current_page env = Some 0
  ∧ (range_fits 0 (posts_per_page q) →
     render_query_total_block env w "range-display"
     = Some (block_markup w
               (range_text (1 - posts_per_page q)
                  (Z.min 0 (found_posts q)) (found_posts q)))).
Proof.
  intros Hi Hv Hgarbage q.
  assert (Hc : current_page env = Some 0).
  { unfold current_page. rewrite Hi, Hv.
    destruct Hgarbage as [->|(c & r & -> & Hsp & Hd & Hm & Hp & Hdot)];
      [done|].
    unfold int_cast. cbn [skip_spaces]. rewrite Hsp.
    apply Ascii.eqb_neq in Hm, Hp, Hdot. rewrite Hm, Hp.
    cbn [read_digits]. rewrite Hd. cbn [float_like]. by rewrite Hdot. }
  split; [done|]. intros Hfits.
  unfold render_query_total_block, query_to_use. rewrite Hc, Hi. simpl.
  fold q. rewrite render_range_display by done.
  do 3 f_equal; unfold range_end, range_start; lia.
Qed.

Lemma url_page_not_a_number_witness :
  render_query_total_block
    (with_GET {[ "query-3-page" := "next"%string ]} example_env)
    "" "range-display"
  = Some (block_markup "" (range_text (-9) 0 25)).
Proof.
  refine (proj2 (url_page_not_a_number
                   (with_GET {[ "query-3-page" := "next"%string ]} example_env)
                   "next" "" eq_refl eq_refl _) _).
  - right. exists "n"%char, "ext"%string. by repeat split.
  - by vm_compute.
Defined.

End QueryTotalProofs.

